(** * Veestributes backend: distribution workflow and metadata validation

    A shallow embedding of the parts of [Backend/tasks.py],
    [Backend/routes.py], [Backend/metadata_processor.py] and
    [Backend/models.py] that carry the release-distribution workflow, the
    audio/artwork validator and the housekeeping job, together with the
    properties the specification states about them.

    Python [int] is [Z], [str] is [string], [None]-able values are
    [option], a [dict] keyed by strings is a [gmap string _], and a raised
    exception is the left injection of a sum. *)

From Stdlib Require Import ZArith Lia Bool List Ascii String DecimalString QArith_base.
From Stdlib Require Lqa DecimalZ DecimalPos.
From stdpp Require Import base option list gmap strings.

Local Open Scope Z_scope.

(** ** Python built-ins used by the backend *)

Module Py.

(** An exception instance: its class and the text [str(e)] yields. *)
Inductive exn_class : Set :=
  | FileNotFoundError
  | ValueError
  | OSError
  | RuntimeError.

Record exn : Set := Raise { exn_cls : exn_class; exn_msg : string }.

(** A computation that returns a value or raises. *)
Definition result (A : Type) : Type := exn + A.

Definition ret {A : Type} (a : A) : result A := inr a.
Definition raise {A : Type} (c : exn_class) (msg : string) : result A :=
  inl (Raise c msg).

Definition bind {A B : Type} (m : result A) (k : A -> result B) : result B :=
  match m with
  | inl e => inl e
  | inr a => k a
  end.

(** [try: m  except Exception as e: h e] *)
Definition try_except {A : Type} (m : result A) (h : exn -> result A) : result A :=
  match m with
  | inl e => h e
  | inr a => inr a
  end.

(** [str(e)] *)
Definition str_exn (e : exn) : string := exn_msg e.

(** [str(n)] and the [{n}] of an f-string, for an [int]. *)
Definition str_int (n : Z) : string := NilZero.string_of_int (Z.to_int n).

Definition is_upper (c : ascii) : bool :=
  let n := nat_of_ascii c in (Nat.leb 65 n && Nat.leb n 90)%bool.

Definition lower_char (c : ascii) : ascii :=
  if is_upper c then ascii_of_nat (nat_of_ascii c + 32) else c.

(** [s.lower()] on ASCII text. *)
Fixpoint lower (s : string) : string :=
  match s with
  | EmptyString => EmptyString
  | String c s' => String (lower_char c) (lower s')
  end.

(** [s.replace(" ", "")] *)
Fixpoint remove_spaces (s : string) : string :=
  match s with
  | EmptyString => EmptyString
  | String c s' =>
      if Ascii.eqb c " "%char then remove_spaces s' else String c (remove_spaces s')
  end.

End Py.

Notation "'do' x <- m ; k" := (Py.bind m (fun x => k))
  (at level 10, x name, m at level 100, k at level 200).

(** ** [os], [os.path]: the file system as the backend sees it *)

Module OS.

Local Open Scope string_scope.

(** What [stat] tells about a path: whether it is a regular file, its size
    in bytes and its modification time (microseconds since the epoch).  The
    map holds what the backend looks at, the entries it tests, stats and
    unlinks; the bookkeeping of the directory that contains an entry (its
    own modification time moves when an entry is unlinked) is not part of
    the model. *)
Record Node : Set := {
  is_regular : bool;
  st_size : Z;
  st_mtime : Z
}.

Definition exists_ (fs : gmap string Node) (path : string) : bool :=
  bool_decide (is_Some (fs !! path)).

Definition isfile (fs : gmap string Node) (path : string) : bool :=
  match fs !! path with
  | Some n => is_regular n
  | None => false
  end.

Definition no_such_file {A : Type} (path : string) : Py.result A :=
  Py.raise Py.FileNotFoundError ("[Errno 2] No such file or directory: '" +:+ path +:+ "'").

Definition getsize (fs : gmap string Node) (path : string) : Py.result Z :=
  match fs !! path with
  | Some n => Py.ret (st_size n)
  | None => no_such_file path
  end.

Definition getmtime (fs : gmap string Node) (path : string) : Py.result Z :=
  match fs !! path with
  | Some n => Py.ret (st_mtime n)
  | None => no_such_file path
  end.

(** [os.remove(path)]: unlinks a regular file.  Only the entry of [path]
    changes here; see [Node] for what is left out. *)
Definition remove (fs : gmap string Node) (path : string) : Py.result (gmap string Node) :=
  match fs !! path with
  | Some n =>
      if is_regular n then Py.ret (delete path fs)
      else Py.raise Py.OSError ("[Errno 21] Is a directory: '" +:+ path +:+ "'")
  | None => no_such_file path
  end.

(** [except OSError] also catches the subclass [FileNotFoundError]. *)
Definition is_OSError (e : Py.exn) : bool :=
  match Py.exn_cls e with
  | Py.OSError | Py.FileNotFoundError => true
  | _ => false
  end.

(** [p.rfind(c)]: the index of the last [c], or -1. *)
Fixpoint rfind_from (c : ascii) (s : string) (i : Z) (found : Z) : Z :=
  match s with
  | EmptyString => found
  | String x s' => rfind_from c s' (i + 1) (if Ascii.eqb x c then i else found)
  end.

Definition rfind (c : ascii) (s : string) : Z := rfind_from c s 0 (-1).

(** The [while] loop of [genericpath._splitext]: is some character of
    [p[i : i + n]] not a dot? *)
Fixpoint has_non_dot (p : string) (i n : nat) : bool :=
  match n with
  | O => false
  | S n' =>
      match String.get i p with
      | Some c => if Ascii.eqb c "." then has_non_dot p (S i) n' else true
      | None => true
      end
  end.

(** [os.path.splitext(p)] on POSIX. *)
Definition splitext (p : string) : string * string :=
  let sepIndex := rfind "/" p in
  let dotIndex := rfind "." p in
  if (dotIndex >? sepIndex)%Z
     && has_non_dot p (Z.to_nat (sepIndex + 1)) (Z.to_nat (dotIndex - (sepIndex + 1)))
  then (String.substring 0 (Z.to_nat dotIndex) p,
        String.substring (Z.to_nat dotIndex) (String.length p - Z.to_nat dotIndex) p)
  else (p, "").

Definition endswith_sep (s : string) : bool :=
  match String.get (String.length s - 1) s with
  | Some c => Ascii.eqb c "/"
  | None => false
  end.

(** [os.path.join(a, b)] on POSIX. *)
Definition join (a b : string) : string :=
  match b with
  | String "/" _ => b
  | _ => if String.eqb a "" || endswith_sep a then a +:+ b else a +:+ "/" +:+ b
  end.

End OS.

(** ** [metadata_processor.py] *)

Module MetadataProcessor.

Local Open Scope string_scope.

(** The mutagen classes of [SUPPORTED_FORMATS]. *)
Inductive AudioFormat : Set := MP3 | FLAC | WavPack | OggVorbis | AAC.

Definition SUPPORTED_FORMATS : gmap string AudioFormat :=
  {[ ".mp3" := MP3; ".flac" := FLAC; ".wv" := WavPack;
     ".ogg" := OggVorbis; ".aac" := AAC; ".m4a" := AAC ]}.

(** [audio.info]; [bitrate] is absent for some containers. *)
Record StreamInfo : Set := {
  info_length : Q;
  info_bitrate : option Z;
  info_sample_rate : Z;
  info_channels : Z
}.

(** A tag value: one with a [text] list (ID3) or a list (Vorbis), or
    anything else, of which the code takes [str(value)]. *)
Inductive TagValue : Set :=
  | Texts (text : list string)
  | Other (repr : string).

(** The two tag families the extractor tells apart: tags with [getall]
    (ID3) and tags with [items] (Vorbis comments). *)
Inductive Tags : Set :=
  | ID3Tags (frames : gmap string TagValue)
  | VorbisComments (comments : gmap string TagValue).

Record Artwork : Set := {
  art_data : string;
  mime_type : string;
  description : string
}.

(** A loaded mutagen file.  [tags] is [None] when the file has no tags or
    an empty tag block (both are falsy); [apic] are its APIC frames in key
    order and [pictures] its FLAC picture blocks. *)
Record Audio : Set := {
  info : StreamInfo;
  tags : option Tags;
  apic : list Artwork;
  pictures : list Artwork
}.

(** The dict [extract_metadata] returns.  [tag_fields] holds the string
    fields ([title], [artist], ...); a field that is [None] is absent. *)
Record Metadata : Set := {
  duration : Z;
  bitrate : option Z;
  sample_rate : Z;
  channels : Z;
  tag_fields : gmap string string;
  artwork : option Artwork
}.

(** [int(x)] of a float: truncation toward zero. *)
Definition int_of (x : Q) : Z := Z.quot (Qnum x) (Zpos (Qden x)).

Definition id3_mappings : list (string * string) :=
  [("TIT2", "title"); ("TPE1", "artist"); ("TALB", "album"); ("TCON", "genre");
   ("TYER", "year"); ("TDRC", "year"); ("TRCK", "track_number");
   ("TPE2", "album_artist"); ("TCOM", "composer"); ("USLT", "lyrics")].

Definition vorbis_mappings : list (string * string) :=
  [("title", "title"); ("artist", "artist"); ("album", "album"); ("genre", "genre");
   ("date", "year"); ("year", "year"); ("tracknumber", "track_number");
   ("albumartist", "album_artist"); ("composer", "composer"); ("lyrics", "lyrics")].

(** [value.text[0] if value.text else None], or [str(value)]. *)
Definition first_text (v : TagValue) : option string :=
  match v with
  | Texts (t :: _) => Some t
  | Texts [] => None
  | Other s => Some s
  end.

(** The loop of [_extract_id3_tags] and of [_extract_vorbis_tags], applied
    to the metadata being built ([metadata.update]). *)
Definition extract_tags (mappings : list (string * string)) (tgs : gmap string TagValue)
    (fields : gmap string string) : gmap string string :=
  foldl (λ acc m,
           match tgs !! m.1 with
           | Some v =>
               match first_text v with
               | Some s => <[m.2 := s]> acc
               | None => delete m.2 acc
               end
           | None => acc
           end) fields mappings.

Definition _extract_id3_tags := extract_tags id3_mappings.
Definition _extract_vorbis_tags := extract_tags vorbis_mappings.

Definition _extract_artwork (audio : Audio) : option Artwork :=
  match tags audio with
  | Some _ =>
      match apic audio with
      | a :: _ => Some a
      | [] => head (pictures audio)
      end
  | None => None
  end.

Record ValidationResult : Set := {
  is_valid : bool;
  errors : list string;
  warnings : list string
}.

(** Python truthiness of an optional [int]: [None] and [0] are falsy. *)
Definition truthy (x : option Z) : bool :=
  match x with
  | Some n => negb (n =? 0)%Z
  | None => false
  end.

Section Extractor.

(** [SUPPORTED_FORMATS[file_ext](file_path)]: mutagen parses the file or
    raises. *)
Variable load : AudioFormat -> string -> Py.result Audio.

Variable fs : gmap string OS.Node.

Definition file_ext (file_path : string) : string :=
  Py.lower (OS.splitext file_path).2.

Definition extract_metadata (file_path : string) : Py.result Metadata :=
  if negb (OS.exists_ fs file_path) then
    Py.raise Py.FileNotFoundError ("Audio file not found: " +:+ file_path)
  else
    match SUPPORTED_FORMATS !! file_ext file_path with
    | None =>
        Py.raise Py.ValueError ("Unsupported audio format: " +:+ file_ext file_path)
    | Some format =>
        Py.try_except
          (do audio <- load format file_path;
           let fields :=
             match tags audio with
             | Some (ID3Tags frames) => _extract_id3_tags frames ∅
             | Some (VorbisComments comments) => _extract_vorbis_tags comments ∅
             | None => ∅
             end in
           Py.ret {| duration := int_of (info_length (info audio));
                     bitrate := info_bitrate (info audio);
                     sample_rate := info_sample_rate (info audio);
                     channels := info_channels (info audio);
                     tag_fields := fields;
                     artwork := _extract_artwork audio |})
          (λ e, inl e)
    end.

Definition validate_audio_file (file_path : string) : Py.result ValidationResult :=
  Py.try_except
    (do metadata <- extract_metadata file_path;
     let errors0 :=
       if (duration metadata <? 30)%Z
       then ["Audio file must be at least 30 seconds long"] else [] in
     let warnings1 :=
       if (sample_rate metadata <? 44100)%Z
       then ["Sample rate is below 44.1kHz"] else [] in
     let warnings2 :=
       if truthy (bitrate metadata) && (default 0 (bitrate metadata) <? 128000)%Z
       then (warnings1 ++ ["Bitrate is below 128kbps"])%list else warnings1 in
     do file_size <- OS.getsize fs file_path;
     let warnings3 :=
       if (file_size <? 480000)%Z
       then (warnings2 ++ ["File size seems unusually small"])%list else warnings2 in
     Py.ret {| is_valid := match errors0 with [] => true | _ => false end;
               errors := errors0;
               warnings := warnings3 |})
    (λ e, Py.ret {| is_valid := false;
                    errors := ["Could not validate audio file: " +:+ Py.str_exn e];
                    warnings := [] |}).

End Extractor.

(** The dict [process_artwork] returns. *)
Record ProcessedArtwork : Set := {
  data : string;
  width : Z;
  height : Z;
  format : string;
  size : Z
}.

Definition default_max_size : Z * Z := (1400, 1400).

Section Artwork.

(** Pillow: the image type with [image.size] and [image.mode], the decoder
    [Image.open], [thumbnail(size, LANCZOS)], [convert(mode)] and the
    encoder [save(output, format=..., quality=...)]. *)
Variable Image : Type.
Variable image_size : Image -> Z * Z.
Variable image_mode : Image -> string.
Variable Image_open : string -> Py.result Image.
Variable thumbnail : Image -> Z * Z -> Image.
Variable convert : Image -> string -> Image.
Variable save : Image -> string -> Z -> Py.result string.

Definition needs_resize (image : Image) (max_size : Z * Z) : bool :=
  ((image_size image).1 >? max_size.1)%Z || ((image_size image).2 >? max_size.2)%Z.

Definition is_rgb (image : Image) : bool :=
  String.eqb (image_mode image) "RGB" || String.eqb (image_mode image) "RGBA".

(** The image handed to the encoder: resized when it exceeds [max_size],
    then converted when its mode is neither RGB nor RGBA. *)
Definition prepare (image : Image) (max_size : Z * Z) : Image :=
  let image := if needs_resize image max_size then thumbnail image max_size else image in
  if negb (is_rgb image) then convert image "RGB" else image.

Definition process_artwork (artwork_data : string) (max_size : Z * Z)
    : Py.result ProcessedArtwork :=
  Py.try_except
    (do image <- Image_open artwork_data;
     if ((image_size image).1 <? 1400)%Z || ((image_size image).2 <? 1400)%Z then
       Py.raise Py.ValueError "Artwork must be at least 1400x1400 pixels"
     else
       let image := prepare image max_size in
       do processed_data <- save image "JPEG" 85;
       Py.ret {| data := processed_data;
                 width := (image_size image).1;
                 height := (image_size image).2;
                 format := "JPEG";
                 size := Z.of_nat (String.length processed_data) |})
    (λ e, Py.raise Py.ValueError ("Could not process artwork: " +:+ Py.str_exn e)).

End Artwork.

End MetadataProcessor.

(** ** [models.py] *)

Module Models.

(** One entry of the mapping [distribution_results]: the two dict literals of
    [tasks.distribute_release].  A key that the literal does not have reads
    as [None], like [dict.get]. *)
Record ResultEntry : Set := {
  entry_status : string;
  entry_url : option string;
  entry_submission_id : option string;
  entry_error : option string
}.

(** A [Release] object as a session holds it.  [id], [user_id], [title] and
    [status] are columns of the table and [user_email] is [release.user.email].
    [distribution_status] is not a column: [models.Release] declares none, so
    the assignment in [tasks.distribute_release] sets a plain attribute of
    the Python object.  The object of the session that made the assignment
    carries it; [db.session.commit()] writes the columns only (see
    [columns]). *)
Record Release : Type := {
  id : Z;
  user_id : Z;
  title : string;
  user_email : string;
  status : string;
  distribution_status : option (gmap string ResultEntry)
}.

Record Platform : Set := {
  platform_id : Z;
  name : string;
  display_name : string;
  is_active : bool
}.

(** A row of [distribution_logs] (the specification's DistributionAttempt). *)
Record DistributionLog : Set := {
  log_release_id : Z;
  log_platform_id : Z;
  log_status : string;
  platform_release_id : option string;
  platform_url : option string;
  error_message : option string;
  retry_count : Z
}.

Definition set_status (r : Release) (s : string) : Release :=
  {| id := id r; user_id := user_id r; title := title r;
     user_email := user_email r; status := s;
     distribution_status := distribution_status r |}.

Definition set_distribution_status (r : Release) (d : gmap string ResultEntry) : Release :=
  {| id := id r; user_id := user_id r; title := title r;
     user_email := user_email r; status := status r;
     distribution_status := Some d |}.

(** The tables the workflow reads and writes. *)
Record DB : Type := {
  releases : gmap Z Release;
  platforms : list Platform;
  distribution_logs : list DistributionLog
}.


(** [obj.attr = v; db.session.commit()] on the release held under [key]:
    the session's object after the commit.  Of it the table stores
    [columns]. *)
Definition save_release (key : Z) (r : Release) (d : DB) : DB :=
  {| releases := <[key := r]> (releases d); platforms := platforms d;
     distribution_logs := distribution_logs d |}.

End Models.

(** ** [tasks.py]: the distribution worker *)

Module Tasks.
Import Models.

Local Open Scope string_scope.

(** What the worker touches: the tables, the task's reported states
    ([self.update_state]), the log, and the queue of notification jobs
    ([send_distribution_notification.delay]). *)
Record World : Type := {
  db : DB;
  task_states : list (string * string);
  logged : list string;
  notifications : list (string * string * gmap string ResultEntry)
}.

Definition update_state (st msg : string) (w : World) : World :=
  {| db := db w; task_states := task_states w ++ [(st, msg)];
     logged := logged w; notifications := notifications w |}.

Definition logger_error (msg : string) (w : World) : World :=
  {| db := db w; task_states := task_states w;
     logged := logged w ++ [msg]; notifications := notifications w |}.

Definition commit (d : DB) (w : World) : World :=
  {| db := d; task_states := task_states w;
     logged := logged w; notifications := notifications w |}.

Definition delay_notification (email ttl : string) (res : gmap string ResultEntry)
    (w : World) : World :=
  {| db := db w; task_states := task_states w;
     logged := logged w; notifications := notifications w ++ [(email, ttl, res)] |}.

(** [distribute_to_platform(release, platform)]: the returned dict. *)
Definition distribute_to_platform (release : Release) (platform : Platform)
    : gmap string string :=
  let rid := Py.str_int (id release) in
  let lname := Py.lower (name platform) in
  if String.eqb lname "spotify" then
    {[ "url" := "https://open.spotify.com/album/" +:+ rid;
       "submission_id" := "spotify_" +:+ rid ]}
  else if String.eqb lname "apple music" then
    {[ "url" := "https://music.apple.com/album/" +:+ rid;
       "submission_id" := "apple_" +:+ rid ]}
  else if String.eqb lname "youtube music" then
    {[ "url" := "https://music.youtube.com/playlist?list=" +:+ rid;
       "submission_id" := "youtube_" +:+ rid ]}
  else
    {[ "url" := "https://" +:+ Py.remove_spaces lname +:+ ".com/release/" +:+ rid;
       "submission_id" := lname +:+ "_" +:+ rid ]}.

Definition success_entry (result : gmap string string) : ResultEntry :=
  {| entry_status := "success";
     entry_url := result !! "url";
     entry_submission_id := result !! "submission_id";
     entry_error := None |}.

Definition failed_entry (e : Py.exn) : ResultEntry :=
  {| entry_status := "failed";
     entry_url := None;
     entry_submission_id := None;
     entry_error := Some (Py.str_exn e) |}.

Section FanOut.

(** The call [distribute_to_platform(release, platform)] of the loop body,
    as the worker sees it: it returns a dict or raises. *)
Variable submit : Release -> Platform -> Py.result (gmap string string).

(** One iteration of [for platform in platforms], with its own
    [try]/[except Exception]. *)
Definition attempt (release : Release) (platform : Platform)
    (acc : gmap string ResultEntry * World) : gmap string ResultEntry * World :=
  let '(results, w) := acc in
  let w := update_state "PROGRESS" ("Distributing to " +:+ name platform +:+ "...") w in
  match submit release platform with
  | inr result => (<[name platform := success_entry result]> results, w)
  | inl e =>
      let w := logger_error
        ("Distribution to " +:+ name platform +:+ " failed: " +:+ Py.str_exn e) w in
      (<[name platform := failed_entry e]> results, w)
  end.

Fixpoint fan_out (release : Release) (ps : list Platform)
    (acc : gmap string ResultEntry * World) : gmap string ResultEntry * World :=
  match ps with
  | [] => acc
  | platform :: rest => fan_out release rest (attempt release platform acc)
  end.

(** The body of the outer [try] of [distribute_release]. *)
Definition distribute_release_body (release_id : Z) (w : World) : World * Py.result unit :=
  let w := update_state "PROGRESS" "Preparing distribution..." w in
  match releases (db w) !! release_id with
  | None =>
      (w, Py.raise Py.ValueError ("Release " +:+ Py.str_int release_id +:+ " not found"))
  | Some release =>
      let '(distribution_results, w) := fan_out release (platforms (db w)) (∅, w) in
      let release := set_distribution_status release distribution_results in
      let release := set_status release "distributed" in
      let w := commit (save_release release_id release (db w)) w in
      let w := delay_notification (user_email release) (title release)
                 distribution_results w in
      (update_state "SUCCESS" "Distribution completed" w, Py.ret tt)
  end.

(** [distribute_release(self, release_id)] with its outer handler, which
    logs, reports FAILURE and raises again. *)
Definition distribute_release_with (release_id : Z) (w : World) : World * Py.result unit :=
  match distribute_release_body release_id w with
  | (w, inr u) => (w, inr u)
  | (w, inl e) =>
      let w := logger_error
        ("Release distribution failed for " +:+ Py.str_int release_id +:+ ": "
           +:+ Py.str_exn e) w in
      (update_state "FAILURE" (Py.str_exn e) w, inl e)
  end.

End FanOut.

(** The worker as deployed: the placeholder submission never raises. *)
Definition distribute_release : Z -> World -> World * Py.result unit :=
  distribute_release_with (fun r p => Py.ret (distribute_to_platform r p)).

(** *** Housekeeping *)

(** What another process does to a scanned file while the loop looks at
    it: nothing, or it deletes the file after the [isfile] test and before
    [getmtime], or after the age test and before [os.remove]. *)
Inductive Race : Set := Quiet | GoneBeforeStat | GoneBeforeRemove.

Definition interfere (r at_point : Race) (path : string) (fs : gmap string OS.Node)
    : gmap string OS.Node :=
  match r, at_point with
  | GoneBeforeStat, GoneBeforeStat => delete path fs
  | GoneBeforeRemove, GoneBeforeRemove => delete path fs
  | _, _ => fs
  end.

(** [hours] hours, in microseconds ([timedelta(hours=hours)]). *)
Definition timedelta_hours (hours : Z) : Z := hours * 3600 * 1000000.

Section Cleanup.

(** [glob.glob(pattern)]: the directory scan. *)
Variable glob : gmap string OS.Node -> string -> list string.

Variable race : string -> Race.

(** The [for file_path in files] loop.  The state is the file system and
    the log; an exception that no handler of the loop catches ends it. *)
Fixpoint cleanup_loop (cutoff_time : Z) (files : list string)
    (st : gmap string OS.Node * list string)
    : gmap string OS.Node * list string * Py.result unit :=
  match files with
  | [] => (st, Py.ret tt)
  | file_path :: rest =>
      let '(fs, log) := st in
      if OS.isfile fs file_path then
        let fs := interfere (race file_path) GoneBeforeStat file_path fs in
        match OS.getmtime fs file_path with
        | inl e => (fs, log, inl e)
        | inr file_time =>
            if (file_time <? cutoff_time)%Z then
              let fs := interfere (race file_path) GoneBeforeRemove file_path fs in
              match OS.remove fs file_path with
              | inr fs' =>
                  cleanup_loop cutoff_time rest
                    (fs', (log ++ ["Removed old file: " +:+ file_path])%list)
              | inl e =>
                  if OS.is_OSError e then
                    cleanup_loop cutoff_time rest
                      (fs, (log ++ ["Failed to remove " +:+ file_path +:+ ": "
                                      +:+ Py.str_exn e])%list)
                  else (fs, log, inl e)
              end
            else cleanup_loop cutoff_time rest (fs, log)
        end
      else cleanup_loop cutoff_time rest (fs, log)
  end.

(** The files the scan of [directory] yields. *)
Definition scanned (fs : gmap string OS.Node) (directory : string) (pattern : option string)
    : list string :=
  match pattern with
  | Some (String c pat) => glob fs (OS.join directory (String c pat))
  | _ => glob fs (OS.join directory "*")
  end.

(** [cleanup_old_files(directory, hours, pattern)] run at time [now]. *)
Definition cleanup_old_files (now : Z) (fs : gmap string OS.Node)
    (directory : string) (hours : Z) (pattern : option string)
    : gmap string OS.Node * list string * Py.result unit :=
  if negb (OS.exists_ fs directory) then (fs, [], Py.ret tt)
  else
    let cutoff_time := now - timedelta_hours hours in
    let files := scanned fs directory pattern in
    cleanup_loop cutoff_time files (fs, []).

End Cleanup.

End Tasks.

(** ** [tasks.py]: the periodic job *)

Module TempCleanup.

Local Open Scope string_scope.

Section Job.

Variable glob : gmap string OS.Node -> string -> list string.

(** What other processes do during the first and the second scan. *)
Variable race_temp : string -> Tasks.Race.
Variable race_uploads : string -> Tasks.Race.

(** [cleanup_temp_files(self)], for an application rooted at [root_path]
    whose [UPLOAD_FOLDER] is [upload_folder]; the two calls of
    [cleanup_old_files] read the clock at [now_temp] and [now_uploads]. *)
Definition cleanup_temp_files (root_path upload_folder : string) (now_temp now_uploads : Z)
    (fs : gmap string OS.Node) : gmap string OS.Node * list string * Py.result unit :=
  let temp_dir := OS.join root_path "temp" in
  let uploads_dir := upload_folder in
  match Tasks.cleanup_old_files glob race_temp now_temp fs temp_dir 1 None with
  | (fs, log, inl e) =>
      (fs, (log ++ ["Temp file cleanup failed: " +:+ Py.str_exn e])%list, inl e)
  | (fs, log, inr _) =>
      match Tasks.cleanup_old_files glob race_uploads now_uploads fs uploads_dir 24
              (Some "*.tmp") with
      | (fs, log', inl e) =>
          (fs, (log ++ log' ++ ["Temp file cleanup failed: " +:+ Py.str_exn e])%list, inl e)
      | (fs, log', inr _) =>
          (fs, (log ++ log' ++ ["Temporary file cleanup completed"])%list, Py.ret tt)
      end
  end.

End Job.

End TempCleanup.

(** ** [routes.py]: the endpoint that starts a distribution *)

Module Routes.
Import Models.

Local Open Scope string_scope.

Inductive Json : Set :=
  | JStr (s : string)
  | JBool (b : bool).

(** [jsonify(body), code] *)
Record Response : Type := {
  status_code : Z;
  body : gmap string Json
}.

Definition error_response (code : Z) (msg : string) : Response :=
  {| status_code := code; body := {[ "error" := JStr msg ]} |}.

Section Distribute.

(** [db.session.commit()]: persists the pending change or raises. *)
Variable session_commit : DB -> Py.result DB.

(** [POST /releases/<release_id>/distribute] for the logged-in user. *)
Definition distribute_release (current_user_id release_id : Z) (d : DB) : DB * Response :=
  match releases d !! release_id with
  | None => (d, error_response 404 "Release not found")
  | Some release =>
      if negb (user_id release =? current_user_id)%Z then
        (d, error_response 404 "Release not found")
      else if negb (String.eqb (status release) "draft") then
        (d, error_response 400 "Release is not ready for distribution")
      else
        match session_commit (save_release release_id (set_status release "processing") d) with
        | inr d' =>
            (d', {| status_code := 200;
                    body := {[ "success" := JBool true;
                               "message" := JStr "Distribution process started" ]} |})
        | inl _ =>
            (* db.session.rollback() *)
            (d, error_response 500 "Failed to start distribution")
        end
  end.

End Distribute.

End Routes.

(** ** [metadata_processor.py]: the waveform *)

Module Waveform.

(** [min(a, b)] and [max(a, b)] of Python: the first argument unless the
    second is strictly smaller (larger). *)
Definition py_min (a b : Q) : Q := if Qle_bool a b then a else b.
Definition py_max (a b : Q) : Q := if Qle_bool b a then a else b.

Section Generator.

(** [random.uniform(-0.3, 0.3)] at iteration [i].  Amplitudes are floats in
    the source; they are rationals here. *)
Variable uniform : nat -> Q.

Definition amplitude (i : nat) : Q :=
  let base_amplitude := Qmake 1 2 in
  let variation := uniform i in
  py_max (Qmake 0 1) (py_min (Qmake 1 1) (Qplus base_amplitude variation)).

(** [generate_waveform_data(file_path, samples)]: one amplitude per
    [i in range(samples)]. *)
Definition generate_waveform_data (file_path : string) (samples : Z) : list Q :=
  map amplitude (seq 0 (Z.to_nat samples)).

End Generator.

End Waveform.

(** ** [models.py]: files and users *)

Module Tables.

(** The columns of [File] the workflow reads or writes. *)
Record FileRow : Set := {
  file_id : Z;
  file_release_id : Z;
  file_path : string;
  file_duration : option Z;
  file_bitrate : option Z;
  file_sample_rate : option Z;
  file_channels : option Z;
  processing_status : string
}.

Record User : Set := {
  uid : Z;
  email : string;
  uname : string;
  password_hash : string;
  is_admin : bool
}.

(** [Model.query.get(key)]: the row with that primary key. *)
Definition get_file (key : Z) (rows : list FileRow) : option FileRow :=
  List.find (λ row, (file_id row =? key)%Z) rows.

Definition get_user (key : Z) (rows : list User) : option User :=
  List.find (λ u, (uid u =? key)%Z) rows.

(** [User.query.filter_by(email=e).first()] *)
Definition first_by_email (e : string) (rows : list User) : option User :=
  List.find (λ u, String.eqb (email u) e) rows.

(** [release.files] *)
Definition files_of (release_id : Z) (rows : list FileRow) : list FileRow :=
  List.filter (λ row, (file_release_id row =? release_id)%Z) rows.

End Tables.

(** ** [tasks.py]: processing an uploaded audio file *)

Module AudioTask.
Import MetadataProcessor Tables.

Local Open Scope string_scope.

Record World : Type := {
  files : list FileRow;
  task_states : list (string * string);
  logged : list string
}.

Definition update_state (st msg : string) (w : World) : World :=
  {| files := files w; task_states := (task_states w ++ [(st, msg)])%list;
     logged := logged w |}.

Definition logger_error (msg : string) (w : World) : World :=
  {| files := files w; task_states := task_states w;
     logged := (logged w ++ [msg])%list |}.

(** The assignments to the row that are columns of [File], committed.  The
    task also sets [title], [artist], [album], [status], [metadata] and
    [waveform_data] on the object; [File] has no such columns, so they do
    not reach the table. *)
Definition store_metadata (metadata : Metadata) (row : FileRow) : FileRow :=
  {| file_id := file_id row;
     file_release_id := file_release_id row;
     file_path := file_path row;
     file_duration := Some (duration metadata);
     file_bitrate := bitrate metadata;
     file_sample_rate := Some (sample_rate metadata);
     file_channels := file_channels row;
     processing_status := processing_status row |}.

Definition commit_file (key : Z) (metadata : Metadata) (w : World) : World :=
  {| files := map (λ row, if (file_id row =? key)%Z then store_metadata metadata row else row)
                (files w);
     task_states := task_states w;
     logged := logged w |}.

Section Task.

Variable load : AudioFormat -> string -> Py.result Audio.
Variable fs : gmap string OS.Node.

(** [str(errors)] of a list of strings, as the f-string prints it. *)
Variable str_list : list string -> string.

(** The body of the [try] of [process_audio_file]. *)
Definition process_audio_file_body (key : Z) (path : string) (w : World)
    : World * Py.result unit :=
  let w := update_state "PROGRESS" "Extracting metadata..." w in
  match extract_metadata load fs path with
  | inl e => (w, inl e)
  | inr metadata =>
      match validate_audio_file load fs path with
      | inl e => (w, inl e)
      | inr validation =>
          if negb (is_valid validation) then
            (w, Py.raise Py.ValueError
                  ("File validation failed: " +:+ str_list (errors validation)))
          else
            let w :=
              match get_file key (files w) with
              | Some _ => commit_file key metadata w
              | None => w
              end in
            (update_state "SUCCESS" "File processed successfully" w, Py.ret tt)
      end
  end.

(** [process_audio_file(self, file_id, file_path)] *)
Definition process_audio_file (key : Z) (path : string) (w : World)
    : World * Py.result unit :=
  match process_audio_file_body key path w with
  | (w, inr u) => (w, inr u)
  | (w, inl e) =>
      let w := logger_error
        ("File processing failed for " +:+ path +:+ ": " +:+ Py.str_exn e) w in
      (update_state "FAILURE" (Py.str_exn e) w, inl e)
  end.

End Task.

End AudioTask.

(** ** [routes.py]: the profile and the deletion of a release *)

Module Profile.
Import Tables.

Local Open Scope string_scope.

Inductive Response : Set :=
  | Updated (user : User)
  | Refused (code : Z) (error : string).

Definition set_name (n : string) (u : User) : User :=
  {| uid := uid u; email := email u; uname := n;
     password_hash := password_hash u; is_admin := is_admin u |}.

Definition set_email (e : string) (u : User) : User :=
  {| uid := uid u; email := e; uname := uname u;
     password_hash := password_hash u; is_admin := is_admin u |}.

(** The table once the changed object is written back. *)
Definition write_user (user : User) (rows : list User) : list User :=
  map (λ u, if (uid u =? uid user)%Z then user else u) rows.

Section Update.

Variable session_commit : list User -> Py.result (list User).

(** [PUT /users/profile] with the JSON object [data]. *)
Definition update_profile (current_user_id : Z) (data : gmap string string)
    (rows : list User) : list User * Response :=
  match get_user current_user_id rows with
  | None => (rows, Refused 500 "Failed to update profile")
  | Some user =>
      let user :=
        match data !! "name" with
        | Some n => set_name n user
        | None => user
        end in
      let taken :=
        match data !! "email" with
        | Some e =>
            match first_by_email e rows with
            | Some existing => negb (uid existing =? uid user)%Z
            | None => false
            end
        | None => false
        end in
      if taken then (rows, Refused 400 "Email already in use")
      else
        let user :=
          match data !! "email" with
          | Some e => set_email e user
          | None => user
          end in
        match session_commit (write_user user rows) with
        | inr rows' => (rows', Updated user)
        | inl _ => (rows, Refused 500 "Failed to update profile")
        end
  end.

End Update.

End Profile.

Module Deletion.
Import Models Tables.

Local Open Scope string_scope.

(** The loop [for file in release.files] of [delete_release]: files that
    are on disk are removed, the others are skipped; an exception ends the
    loop with what was removed so far. *)
Fixpoint remove_files (paths : list string) (fs : gmap string OS.Node)
    : gmap string OS.Node * Py.result unit :=
  match paths with
  | [] => (fs, Py.ret tt)
  | path :: rest =>
      if OS.exists_ fs path then
        match OS.remove fs path with
        | inr fs' => remove_files rest fs'
        | inl e => (fs, inl e)
        end
      else remove_files rest fs
  end.

(** [db.session.delete(release)]: the release goes, and with it its file
    rows ([cascade='all, delete-orphan']). *)
Definition delete_rows (release_id : Z) (st : DB * list FileRow) : DB * list FileRow :=
  ({| releases := delete release_id (releases st.1);
      platforms := platforms st.1;
      distribution_logs := distribution_logs st.1 |},
   List.filter (λ row, negb (file_release_id row =? release_id)%Z) st.2).

Section Delete.

Variable session_commit : DB * list FileRow -> Py.result (DB * list FileRow).

(** [DELETE /releases/<release_id>]: the tables, the disk and the status
    code afterwards. *)
Definition delete_release (current_user_id release_id : Z)
    (st : DB * list FileRow) (fs : gmap string OS.Node)
    : DB * list FileRow * gmap string OS.Node * Z :=
  match releases st.1 !! release_id with
  | None => (st, fs, 404)
  | Some release =>
      if negb (user_id release =? current_user_id)%Z then (st, fs, 404)
      else
        match remove_files (file_path <$> files_of release_id st.2) fs with
        | (fs', inl _) => (st, fs', 500)
        | (fs', inr _) =>
            match session_commit (delete_rows release_id st) with
            | inr st' => (st', fs', 200)
            | inl _ => (st, fs', 500)
            end
        end
  end.

End Delete.

End Deletion.

(** * Properties *)

(** ** The distribution worker *)

Section FanOutFacts.
Import Models Tasks.
Local Open Scope string_scope.

Variable submit : Release -> Platform -> Py.result (gmap string string).

(** The entry that one attempt leaves in the results. *)
Definition outcome_entry (release : Release) (platform : Platform) : ResultEntry :=
  match submit release platform with
  | inr result => success_entry result
  | inl e => failed_entry e
  end.

Definition returns (release : Release) (platform : Platform) : bool :=
  match submit release platform with inr _ => true | inl _ => false end.

Definition progress_of (platform : Platform) : string * string :=
  ("PROGRESS", "Distributing to " +:+ name platform +:+ "...").

Lemma attempt_results release p results w :
  (attempt submit release p (results, w)).1 = <[name p := outcome_entry release p]> results.
Proof.
  unfold attempt, outcome_entry. destruct (submit release p); reflexivity.
Qed.

Lemma attempt_db release p acc : db (attempt submit release p acc).2 = db acc.2.
Proof.
  destruct acc as [results w]. unfold attempt.
  destruct (submit release p); reflexivity.
Qed.

Lemma attempt_states release p acc :
  task_states (attempt submit release p acc).2 = (task_states acc.2 ++ [progress_of p])%list.
Proof.
  destruct acc as [results w]. unfold attempt.
  destruct (submit release p); reflexivity.
Qed.

Lemma attempt_notifications release p acc :
  notifications (attempt submit release p acc).2 = notifications acc.2.
Proof.
  destruct acc as [results w]. unfold attempt.
  destruct (submit release p); reflexivity.
Qed.

Lemma fan_out_app release ps qs acc :
  fan_out submit release (ps ++ qs) acc
  = fan_out submit release qs (fan_out submit release ps acc).
Proof.
  revert acc. induction ps as [|p ps IH]; intros acc; simpl; [reflexivity|].
  apply IH.
Qed.

Lemma fan_out_db release ps acc : db (fan_out submit release ps acc).2 = db acc.2.
Proof.
  revert acc. induction ps as [|p ps IH]; intros acc; simpl; [reflexivity|].
  rewrite IH. apply attempt_db.
Qed.

Lemma fan_out_notifications release ps acc :
  notifications (fan_out submit release ps acc).2 = notifications acc.2.
Proof.
  revert acc. induction ps as [|p ps IH]; intros acc; simpl; [reflexivity|].
  rewrite IH. apply attempt_notifications.
Qed.

Lemma fan_out_states release ps acc :
  task_states (fan_out submit release ps acc).2
  = (task_states acc.2 ++ (progress_of <$> ps))%list.
Proof.
  revert acc. induction ps as [|p ps IH]; intros acc; simpl.
  - by rewrite app_nil_r.
  - rewrite IH, attempt_states, <- app_assoc. reflexivity.
Qed.

(** A name that no platform of the list carries keeps its entry. *)
Lemma fan_out_lookup_other release ps acc k :
  k ∉ (name <$> ps) →
  (fan_out submit release ps acc).1 !! k = acc.1 !! k.
Proof.
  revert acc. induction ps as [|p ps IH]; intros acc Hk; simpl; [reflexivity|].
  rewrite fmap_cons in Hk. apply not_elem_of_cons in Hk as [Hne Hk].
  rewrite IH by assumption. destruct acc as [results w].
  rewrite attempt_results. simpl. by rewrite lookup_insert_ne.
Qed.

(** The entry under a name is the outcome of the last platform carrying it. *)
Lemma fan_out_lookup_last release ps1 p ps2 acc :
  name p ∉ (name <$> ps2) →
  (fan_out submit release (ps1 ++ p :: ps2) acc).1 !! name p
  = Some (outcome_entry release p).
Proof.
  intros Hlast. rewrite fan_out_app. simpl.
  rewrite fan_out_lookup_other by assumption.
  destruct (fan_out submit release ps1 acc) as [results w].
  rewrite attempt_results. simpl. apply lookup_insert_eq.
Qed.

Lemma fan_out_dom release ps acc :
  dom (fan_out submit release ps acc).1 = dom acc.1 ∪ list_to_set (name <$> ps).
Proof.
  revert acc. induction ps as [|p ps IH]; intros acc; simpl.
  - set_solver.
  - rewrite IH. destruct acc as [results w]. rewrite attempt_results. simpl.
    rewrite dom_insert_L. set_solver.
Qed.

(** Every entry is an initial one or some platform's outcome. *)
Lemma fan_out_lookup_inv release ps acc k entry :
  (fan_out submit release ps acc).1 !! k = Some entry →
  acc.1 !! k = Some entry ∨
  ∃ p, p ∈ ps ∧ name p = k ∧ entry = outcome_entry release p.
Proof.
  revert acc. induction ps as [|p ps IH]; intros acc Hk; simpl in Hk; [by left|].
  apply IH in Hk as [Hk | (q & Hq & Hn & He)].
  - destruct acc as [results w]. rewrite attempt_results in Hk. simpl in Hk.
    destruct (decide (name p = k)) as [Heq | Hne].
    + subst k. rewrite lookup_insert_eq in Hk. inversion Hk; subst.
      right. exists p. split; [apply list_elem_of_here | done].
    + rewrite lookup_insert_ne in Hk by assumption. by left.
  - right. exists q. split; [by apply list_elem_of_further | done].
Qed.

End FanOutFacts.

Lemma filter_length_ext {A} (P Q : A → Prop) `{∀ x, Decision (P x)} `{∀ x, Decision (Q x)}
    (l : list A) :
  (∀ x, P x ↔ Q x) → length (filter P l) = length (filter Q l).
Proof.
  intros HPQ. induction l as [|x l IH]; [reflexivity|].
  rewrite !filter_cons.
  destruct (decide (P x)) as [HP|HP], (decide (Q x)) as [HQ|HQ]; simpl;
    try (rewrite IH; reflexivity); exfalso; [apply HQ, HPQ, HP | apply HP, HPQ, HQ].
Qed.

Section FanOutCounting.
Import Models Tasks.
Local Open Scope string_scope.

Variable submit : Release -> Platform -> Py.result (gmap string string).

(** How many entries of the results carry a given status. *)
Definition count_status (st : string) (results : gmap string ResultEntry) : nat :=
  size (filter (λ kv : string * ResultEntry, entry_status kv.2 = st) results).

Lemma count_status_insert_fresh st k entry (results : gmap string ResultEntry) :
  results !! k = None →
  count_status st (<[k := entry]> results)
  = ((if decide (entry_status entry = st) then 1 else 0) + count_status st results)%nat.
Proof.
  intros Hfresh. unfold count_status. rewrite map_filter_insert. simpl.
  destruct (decide (entry_status entry = st)) as [Heq | Hne].
  - rewrite map_size_insert_None; [reflexivity|].
    apply map_lookup_filter_None. left. exact Hfresh.
  - rewrite delete_id by assumption. reflexivity.
Qed.

Lemma fan_out_count st release ps acc :
  NoDup (name <$> ps) →
  (∀ p, p ∈ ps → acc.1 !! name p = None) →
  count_status st (fan_out submit release ps acc).1
  = (count_status st acc.1
     + length (filter (λ p, entry_status (outcome_entry submit release p) = st) ps))%nat.
Proof.
  revert acc. induction ps as [|p ps IH]; intros acc Hnd Hfresh; simpl.
  - lia.
  - rewrite fmap_cons in Hnd. apply NoDup_cons in Hnd as [Hp Hnd].
    rewrite IH; [| assumption |].
    + destruct acc as [results w]. rewrite attempt_results. simpl.
      rewrite count_status_insert_fresh
        by (apply (Hfresh p), list_elem_of_here).
      rewrite filter_cons.
      destruct (decide (entry_status (outcome_entry submit release p) = st));
        simpl; lia.
    + intros q Hq. destruct acc as [results w]. rewrite attempt_results. simpl.
      rewrite lookup_insert_ne.
      * apply (Hfresh q). by apply list_elem_of_further.
      * intros Heq. apply Hp. rewrite Heq. by apply list_elem_of_fmap_2.
Qed.

Lemma outcome_status_success release p :
  entry_status (outcome_entry submit release p) = "success"
  ↔ returns submit release p = true.
Proof.
  unfold outcome_entry, returns. destruct (submit release p); simpl; split;
    intros H; try reflexivity; discriminate H.
Qed.

Lemma outcome_status_failed release p :
  entry_status (outcome_entry submit release p) = "failed"
  ↔ returns submit release p = false.
Proof.
  unfold outcome_entry, returns. destruct (submit release p); simpl; split;
    intros H; try reflexivity; discriminate H.
Qed.

Lemma filter_returns_split release (ps : list Platform) :
  (length (filter (λ p, returns submit release p = true) ps)
   + length (filter (λ p, returns submit release p = false) ps))%nat = length ps.
Proof.
  induction ps as [|p ps IH]; [reflexivity|].
  rewrite !filter_cons.
  destruct (decide (returns submit release p = true)) as [Ht|Ht],
           (decide (returns submit release p = false)) as [Hf|Hf]; simpl;
    try lia.
  - congruence.
  - destruct (returns submit release p); congruence.
Qed.

End FanOutCounting.

Section WorkerFacts.
Import Models Tasks.
Local Open Scope string_scope.

Variable submit : Release -> Platform -> Py.result (gmap string string).

(** The results mapping the worker builds for a release. *)
Definition results_of (release : Release) (w : World) : gmap string ResultEntry :=
  (fan_out submit release (platforms (db w))
     (∅, update_state "PROGRESS" "Preparing distribution..." w)).1.

Definition distributed (release : Release) (w : World) : Release :=
  set_status (set_distribution_status release (results_of release w)) "distributed".

(** When the release exists the run ends normally and stores the release
    with its results and the status [distributed]. *)
Lemma distribute_release_found release_id w release :
  releases (db w) !! release_id = Some release →
  (distribute_release_with submit release_id w).2 = inr tt ∧
  releases (db (distribute_release_with submit release_id w).1)
    = <[release_id := distributed release w]> (releases (db w)) ∧
  platforms (db (distribute_release_with submit release_id w).1) = platforms (db w) ∧
  distribution_logs (db (distribute_release_with submit release_id w).1)
    = distribution_logs (db w) ∧
  notifications (distribute_release_with submit release_id w).1
    = (notifications w ++ [(user_email release, title release, results_of release w)])%list.
Proof.
  intros Hfound.
  unfold distribute_release_with, distribute_release_body, distributed, results_of.
  cbn [db update_state]. rewrite Hfound.
  pose proof (fan_out_db submit release (platforms (db w))
                (∅, update_state "PROGRESS" "Preparing distribution..." w)) as Hdb.
  pose proof (fan_out_notifications submit release (platforms (db w))
                (∅, update_state "PROGRESS" "Preparing distribution..." w)) as Hnot.
  destruct (fan_out submit release (platforms (db w))
              (∅, update_state "PROGRESS" "Preparing distribution..." w))
    as [results w'] eqn:Hfan.
  simpl in Hdb, Hnot. simpl. rewrite Hdb, Hnot. simpl. done.
Qed.

End WorkerFacts.

(** *** Concrete data used to exercise the statements *)

Module Sample.
Import Models Tasks.
Local Open Scope string_scope.

Definition platform (i : Z) (n : string) (active : bool) : Platform :=
  {| platform_id := i; name := n; display_name := n; is_active := active |}.

Definition spotify : Platform := platform 1 "Spotify" true.
Definition apple : Platform := platform 2 "Apple Music" true.
Definition tidal : Platform := platform 3 "Tidal" true.
Definition retired : Platform := platform 4 "Napster" false.

Definition release (st : string) : Release :=
  {| id := 7; user_id := 1; title := "First Light"; user_email := "artist@example.org";
     status := st; distribution_status := None |}.

Definition database (st : string) (ps : list Platform) : DB :=
  {| releases := {[ 7%Z := release st ]}; platforms := ps; distribution_logs := [] |}.

Definition world (st : string) (ps : list Platform) : World :=
  {| db := database st ps; task_states := []; logged := []; notifications := [] |}.

(** A submission that is refused by one platform. *)
Definition flaky_submit (r : Release) (p : Platform) : Py.result (gmap string string) :=
  if String.eqb (name p) "Tidal" then Py.raise Py.RuntimeError "503 Service Unavailable"
  else Py.ret (distribute_to_platform r p).

End Sample.

Section WorkerClaims.
Import Models Tasks.
Local Open Scope string_scope.

(** C1.  For every release and every list of platforms, a run of
    [distribute_release] on an existing release ends normally and leaves the
    release with status [distributed] (never [failed]), however many
    platform attempts raised.  When the platform names are distinct, as the
    [unique] column makes them, the results hold one [success] entry per
    submission that returned and one [failed] entry per submission that
    raised; with three platforms of which exactly one raises, that is two
    [success] entries and one [failed] entry. *)
Theorem distribute_release_distributed_despite_failures
    (submit : Release -> Platform -> Py.result (gmap string string))
    (release_id : Z) (w : World) (release : Release) :
  releases (db w) !! release_id = Some release →
  let out := distribute_release_with submit release_id w in
  let ps := platforms (db w) in
  ∃ release' results,
    out.2 = inr tt ∧
    releases (db out.1) !! release_id = Some release' ∧
    status release' = "distributed" ∧
    status release' ≠ "failed" ∧
    distribution_status release' = Some results ∧
    (NoDup (name <$> ps) →
       count_status "success" results
         = length (filter (λ p, returns submit release p = true) ps) ∧
       count_status "failed" results
         = length (filter (λ p, returns submit release p = false) ps) ∧
       (length ps = 3%nat →
        length (filter (λ p, returns submit release p = false) ps) = 1%nat →
        count_status "success" results = 2%nat ∧
        count_status "failed" results = 1%nat)).
Proof.
  intros Hfound out ps.
  destruct (distribute_release_found submit release_id w release Hfound)
    as (Hret & Hrel & _).
  exists (distributed submit release w), (results_of submit release w).
  split; [exact Hret|].
  split; [subst out; rewrite Hrel; apply lookup_insert_eq|].
  split; [reflexivity|]. split; [discriminate|]. split; [reflexivity|].
  intros Hnd.
  assert (Hs : ∀ st, count_status st (results_of submit release w)
             = length (filter (λ p, entry_status (outcome_entry submit release p) = st) ps)).
  { intros st. unfold results_of. rewrite fan_out_count.
    - simpl. unfold count_status. rewrite map_filter_empty, map_size_empty. reflexivity.
    - exact Hnd.
    - intros p _. apply lookup_empty. }
  assert (Hsucc : count_status "success" (results_of submit release w)
             = length (filter (λ p, returns submit release p = true) ps)).
  { rewrite Hs. apply filter_length_ext. intros p. apply outcome_status_success. }
  assert (Hfail : count_status "failed" (results_of submit release w)
             = length (filter (λ p, returns submit release p = false) ps)).
  { rewrite Hs. apply filter_length_ext. intros p. apply outcome_status_failed. }
  split; [exact Hsucc|]. split; [exact Hfail|].
  intros Hlen Hone. rewrite Hsucc, Hfail.
  pose proof (filter_returns_split submit release ps) as Hsplit.
  split; lia.
Qed.

Lemma distribute_release_distributed_despite_failures_witness :
  let out := distribute_release_with Sample.flaky_submit 7
               (Sample.world "processing" [Sample.spotify; Sample.tidal; Sample.apple]) in
  ∃ release' results,
    out.2 = inr tt ∧
    releases (db out.1) !! 7%Z = Some release' ∧
    status release' = "distributed" ∧
    distribution_status release' = Some results ∧
    count_status "success" results = 2%nat ∧
    count_status "failed" results = 1%nat.
Proof.
  destruct (distribute_release_distributed_despite_failures Sample.flaky_submit 7
              (Sample.world "processing" [Sample.spotify; Sample.tidal; Sample.apple])
              (Sample.release "processing") eq_refl)
    as (release' & results & Hret & Hrel & Hst & _ & Hres & Hcount).
  exists release', results.
  destruct Hcount as (_ & _ & Hthree).
  - simpl. repeat constructor; set_solver.
  - destruct Hthree as [Hs Hf]; [reflexivity | reflexivity |].
    repeat split; assumption.
Defined.

(** C3.  Attempts are isolated.  When the submission for one platform
    raises, the loop still reports and performs the attempt of every
    platform of the list, those after the failing one included; each later
    platform gets the entry of its own outcome; and the failing platform's
    entry has status [failed] and carries [str(e)] as data.  The exception
    does not leave the loop: the run as a whole still ends normally. *)
Theorem fan_out_isolates_platform_failure
    (submit : Release -> Platform -> Py.result (gmap string string))
    (release : Release) (ps1 : list Platform) (p : Platform) (ps2 : list Platform)
    (e : Py.exn) (acc : gmap string ResultEntry) (w : World) :
  submit release p = inl e →
  let ps := (ps1 ++ p :: ps2)%list in
  let out := fan_out submit release ps (acc, w) in
  task_states out.2 = (task_states w ++ (progress_of <$> ps))%list ∧
  (∀ q, q ∈ ps → is_Some (out.1 !! name q)) ∧
  (∀ l1 q l2, ps2 = (l1 ++ q :: l2)%list → name q ∉ (name <$> l2) →
     out.1 !! name q = Some (outcome_entry submit release q)) ∧
  (name p ∉ (name <$> ps2) →
     out.1 !! name p
     = Some {| entry_status := "failed"; entry_url := None;
               entry_submission_id := None;
               entry_error := Some (Py.str_exn e) |}) ∧
  (∀ release_id w0,
     releases (db w0) !! release_id = Some release →
     platforms (db w0) = ps →
     (distribute_release_with submit release_id w0).2 = inr tt).
Proof.
  intros Hraise ps out. subst out.
  split; [apply (fan_out_states submit release ps (acc, w))|].
  split.
  { intros q Hq. apply elem_of_dom. rewrite fan_out_dom.
    apply elem_of_union_r, elem_of_list_to_set. by apply list_elem_of_fmap_2. }
  split.
  { intros l1 q l2 Hps2 Hlast. subst ps ps2.
    replace (ps1 ++ p :: l1 ++ q :: l2)%list with ((ps1 ++ p :: l1) ++ q :: l2)%list
      by (rewrite <- app_assoc; reflexivity).
    by apply fan_out_lookup_last. }
  split.
  { intros Hlast. subst ps. rewrite fan_out_lookup_last by assumption.
    unfold outcome_entry. rewrite Hraise. reflexivity. }
  intros release_id w0 Hfound _.
  apply (distribute_release_found submit release_id w0 release Hfound).
Qed.

Lemma fan_out_isolates_platform_failure_witness :
  let out := fan_out Sample.flaky_submit (Sample.release "processing")
               [Sample.spotify; Sample.tidal; Sample.apple]
               (∅, Sample.world "processing" [Sample.spotify; Sample.tidal; Sample.apple]) in
  task_states out.2
    = [("PROGRESS", "Distributing to Spotify..."); ("PROGRESS", "Distributing to Tidal...");
       ("PROGRESS", "Distributing to Apple Music...")] ∧
  out.1 !! "Apple Music"
    = Some {| entry_status := "success";
              entry_url := Some "https://music.apple.com/album/7";
              entry_submission_id := Some "apple_7"; entry_error := None |} ∧
  out.1 !! "Tidal"
    = Some {| entry_status := "failed"; entry_url := None; entry_submission_id := None;
              entry_error := Some "503 Service Unavailable" |}.
Proof.
  destruct (fan_out_isolates_platform_failure Sample.flaky_submit
              (Sample.release "processing") [Sample.spotify] Sample.tidal [Sample.apple]
              (Py.Raise Py.RuntimeError "503 Service Unavailable") ∅
              (Sample.world "processing" [Sample.spotify; Sample.tidal; Sample.apple])
              eq_refl)
    as (Hstates & _ & Hlater & Hfailed & _).
  split; [exact Hstates|]. split.
  - apply (Hlater [] Sample.apple [] eq_refl). simpl. apply not_elem_of_nil.
  - apply Hfailed. simpl. set_solver.
Defined.

(** C4, as the code has it.  The worker takes [Platform.query.all()] and
    never reads [is_active]: every platform of the table is attempted and
    gets an entry in the results, whatever its flag, and the results hold
    no other names. *)
Theorem every_listed_platform_is_attempted
    (submit : Release -> Platform -> Py.result (gmap string string))
    (release_id : Z) (w : World) (release : Release) :
  releases (db w) !! release_id = Some release →
  let out := distribute_release_with submit release_id w in
  ∃ release' results,
    releases (db out.1) !! release_id = Some release' ∧
    distribution_status release' = Some results ∧
    dom results = list_to_set (name <$> platforms (db w)) ∧
    (∀ p active, p ∈ platforms (db w) → is_active p = active →
       results !! name p ≠ None ∧
       ("PROGRESS", "Distributing to " +:+ name p +:+ "...") ∈ task_states out.1).
Proof.
  intros Hfound out.
  destruct (distribute_release_found submit release_id w release Hfound)
    as (_ & Hrel & _).
  exists (distributed submit release w), (results_of submit release w).
  split; [subst out; rewrite Hrel; apply lookup_insert_eq|].
  split; [reflexivity|].
  assert (Hdom : dom (results_of submit release w)
                 = list_to_set (name <$> platforms (db w))).
  { unfold results_of. rewrite fan_out_dom. simpl. rewrite dom_empty_L.
    apply (left_id_L ∅ (∪)). }
  split; [exact Hdom|].
  intros p active Hp _. split.
  - apply not_eq_None_Some, elem_of_dom. rewrite Hdom.
    apply elem_of_list_to_set. by apply list_elem_of_fmap_2.
  - subst out. unfold distribute_release_with, distribute_release_body.
    cbn [db update_state]. rewrite Hfound.
    pose proof (fan_out_states submit release (platforms (db w))
                  (∅, update_state "PROGRESS" "Preparing distribution..." w)) as Hst.
    destruct (fan_out submit release (platforms (db w))
                (∅, update_state "PROGRESS" "Preparing distribution..." w))
      as [results w'].
    simpl in Hst. simpl. rewrite Hst.
    apply elem_of_app. left. apply elem_of_app. right.
    apply (list_elem_of_fmap_2 progress_of). exact Hp.
Qed.

Lemma every_listed_platform_is_attempted_witness :
  ∃ release' results,
    releases (db (distribute_release 7
                    (Sample.world "processing" [Sample.spotify; Sample.retired])).1) !! 7%Z
      = Some release' ∧
    distribution_status release' = Some results ∧
    dom results = {[ "Spotify"; "Napster" ]}.
Proof.
  destruct (every_listed_platform_is_attempted
              (λ r p, Py.ret (distribute_to_platform r p)) 7
              (Sample.world "processing" [Sample.spotify; Sample.retired])
              (Sample.release "processing") eq_refl)
    as (release' & results & Hrel & Hres & Hdom & _).
  exists release', results. split; [exact Hrel|]. split; [exact Hres|].
  rewrite Hdom. simpl. set_solver.
Defined.

(** C4, as the claim words it, fails: an inactive platform is attempted
    like any other and receives a [success] entry. *)
Lemma inactive_platform_is_attempted :
  let w := Sample.world "processing" [Sample.spotify; Sample.retired] in
  Sample.retired ∈ platforms (db w) ∧
  is_active Sample.retired = false ∧
  ("PROGRESS", "Distributing to Napster...") ∈ task_states (distribute_release 7 w).1 ∧
  ∃ release' results,
    releases (db (distribute_release 7 w).1) !! 7%Z = Some release' ∧
    distribution_status release' = Some results ∧
    results !! "Napster"
    = Some {| entry_status := "success";
              entry_url := Some "https://napster.com/release/7";
              entry_submission_id := Some "napster_7"; entry_error := None |}.
Proof.
  split; [simpl; set_solver|]. split; [reflexivity|].
  split; [vm_compute; set_solver|].
  eexists _, _. split; [reflexivity|]. split; [reflexivity|]. reflexivity.
Qed.

Lemma distribute_to_platform_fields (r : Release) (p : Platform) :
  ∃ url sid,
    distribute_to_platform r p !! "url" = Some url ∧
    distribute_to_platform r p !! "submission_id" = Some sid ∧
    url ≠ "" ∧ sid ≠ "".
Proof.
  unfold distribute_to_platform.
  repeat match goal with
         | |- context [if ?b then _ else _] => destruct b
         end;
    eexists _, _;
    (split; [apply lookup_insert_eq|]);
    (split; [rewrite lookup_insert_ne by discriminate; apply lookup_singleton_eq|]);
    (split; [discriminate|]);
    try discriminate.
  destruct (Py.lower (name p)); discriminate.
Qed.

(** A [success] entry with its URL and submission id. *)
Definition populated (url sid : string) : ResultEntry :=
  {| entry_status := "success"; entry_url := Some url;
     entry_submission_id := Some sid; entry_error := None |}.

Lemma success_entry_of_dict (url sid : string) :
  success_entry {[ "url" := url; "submission_id" := sid ]} = populated url sid.
Proof.
  unfold success_entry, populated.
  rewrite lookup_insert_eq.
  rewrite lookup_insert_ne by discriminate. rewrite lookup_singleton_eq. reflexivity.
Qed.

(** The four branches of [distribute_to_platform], by the lower-cased
    platform name. *)
Lemma distribute_to_platform_cases (r : Release) (p : Platform) :
  let rid := Py.str_int (id r) in
  let lname := Py.lower (name p) in
  (lname = "spotify" ∧
   success_entry (distribute_to_platform r p)
   = populated ("https://open.spotify.com/album/" +:+ rid) ("spotify_" +:+ rid)) ∨
  (lname = "apple music" ∧
   success_entry (distribute_to_platform r p)
   = populated ("https://music.apple.com/album/" +:+ rid) ("apple_" +:+ rid)) ∨
  (lname = "youtube music" ∧
   success_entry (distribute_to_platform r p)
   = populated ("https://music.youtube.com/playlist?list=" +:+ rid) ("youtube_" +:+ rid)) ∨
  (lname ≠ "spotify" ∧ lname ≠ "apple music" ∧ lname ≠ "youtube music" ∧
   success_entry (distribute_to_platform r p)
   = populated ("https://" +:+ Py.remove_spaces lname +:+ ".com/release/" +:+ rid)
       (lname +:+ "_" +:+ rid)).
Proof.
  intros rid lname. unfold distribute_to_platform. fold rid lname.
  destruct (String.eqb_spec lname "spotify") as [Hs | Hs].
  { left. split; [exact Hs | apply success_entry_of_dict]. }
  destruct (String.eqb_spec lname "apple music") as [Ha | Ha].
  { right. left. split; [exact Ha | apply success_entry_of_dict]. }
  destruct (String.eqb_spec lname "youtube music") as [Hy | Hy].
  { right. right. left. split; [exact Hy | apply success_entry_of_dict]. }
  right. right. right. repeat (split; [assumption|]). apply success_entry_of_dict.
Qed.

Lemma str_int_inj (a b : Z) : Py.str_int a = Py.str_int b → a = b.
Proof.
  unfold Py.str_int. intros H.
  apply DecimalZ.to_int_inj.
  assert (Hisi : ∀ z, NilZero.int_of_string (NilZero.string_of_int (Z.to_int z))
                      = Some (Z.to_int z)).
  { intros z. apply NilZero.isi; destruct z; simpl; try discriminate;
      intros [= E]; by apply DecimalPos.Unsigned.to_uint_nonnil in E. }
  pose proof (Hisi a) as Ha. rewrite H, Hisi in Ha. by inversion Ha.
Qed.

(** On one platform the URL, and likewise the submission id, tells releases
    apart. *)
Lemma distribute_to_platform_inj (r r' : Release) (p : Platform) :
  entry_url (success_entry (distribute_to_platform r p))
    = entry_url (success_entry (distribute_to_platform r' p)) ∨
  entry_submission_id (success_entry (distribute_to_platform r p))
    = entry_submission_id (success_entry (distribute_to_platform r' p)) →
  id r = id r'.
Proof.
  intros Hsame. apply str_int_inj.
  destruct (distribute_to_platform_cases r p)
    as [[Hn Heq0] | [[Hn Heq0] | [[Hn Heq0] | (Hs & Ha & Hy & Heq0)]]];
    destruct (distribute_to_platform_cases r' p)
      as [[Hn' Heq] | [[Hn' Heq] | [[Hn' Heq] | (Hs' & Ha' & Hy' & Heq)]]];
    try congruence; rewrite Heq0, Heq in Hsame; clear Heq0 Heq;
    destruct Hsame as [Hsame | Hsame]; simpl in Hsame; injection Hsame as Hsame;
    repeat match type of Hsame with
           | ?a +:+ _ = ?a +:+ _ => apply (inj (String.app a)) in Hsame
           end;
    exact Hsame.
Qed.

(** C8.  The placeholder submission follows a fixed template over the
    release id and the platform name alone.  Two releases with the same id
    and two platforms with the same name get the same dict.  For the
    lower-cased names [spotify], [apple music] and [youtube music] the URL
    is [https://open.spotify.com/album/<id>],
    [https://music.apple.com/album/<id>] and
    [https://music.youtube.com/playlist?list=<id>] and the submission id is
    [spotify_<id>], [apple_<id>] and [youtube_<id>]; for every other name
    the URL is [https://<name without spaces>.com/release/<id>] and the
    submission id [<name>_<id>].  URL and submission id are never empty,
    and on one platform each of them tells releases apart.  In a run, the
    results dict (the one handed to the notification) holds for each
    platform the entry of its last attempt: status [success] with the
    templated URL and submission id and no error when the submission
    returned, status [failed] with [str(e)] as error and neither URL nor
    id when it raised [e]; and it holds no entry of any other shape. *)
Theorem submission_entries_follow_policy
    (submit : Release -> Platform -> Py.result (gmap string string))
    (release_id : Z) (w : World) (release : Release) :
  releases (db w) !! release_id = Some release →
  (∀ r p d, submit r p = inr d → d = distribute_to_platform r p) →
  (∀ r r' p p', id r = id r' → name p = name p' →
     distribute_to_platform r p = distribute_to_platform r' p') ∧
  (∀ r p, Py.lower (name p) = "spotify" →
     success_entry (distribute_to_platform r p)
     = populated ("https://open.spotify.com/album/" +:+ Py.str_int (id r))
         ("spotify_" +:+ Py.str_int (id r))) ∧
  (∀ r p, Py.lower (name p) = "apple music" →
     success_entry (distribute_to_platform r p)
     = populated ("https://music.apple.com/album/" +:+ Py.str_int (id r))
         ("apple_" +:+ Py.str_int (id r))) ∧
  (∀ r p, Py.lower (name p) = "youtube music" →
     success_entry (distribute_to_platform r p)
     = populated ("https://music.youtube.com/playlist?list=" +:+ Py.str_int (id r))
         ("youtube_" +:+ Py.str_int (id r))) ∧
  (∀ r p, Py.lower (name p) ≠ "spotify" → Py.lower (name p) ≠ "apple music" →
     Py.lower (name p) ≠ "youtube music" →
     success_entry (distribute_to_platform r p)
     = populated ("https://" +:+ Py.remove_spaces (Py.lower (name p)) +:+ ".com/release/"
                    +:+ Py.str_int (id r))
         (Py.lower (name p) +:+ "_" +:+ Py.str_int (id r))) ∧
  (∀ r p, ∃ url sid,
     success_entry (distribute_to_platform r p) = populated url sid ∧
     url ≠ "" ∧ sid ≠ "") ∧
  (∀ r r' p,
     entry_url (success_entry (distribute_to_platform r p))
       = entry_url (success_entry (distribute_to_platform r' p)) ∨
     entry_submission_id (success_entry (distribute_to_platform r p))
       = entry_submission_id (success_entry (distribute_to_platform r' p)) →
     id r = id r') ∧
  ∃ results,
    notifications (distribute_release_with submit release_id w).1
      = (notifications w ++ [(user_email release, title release, results)])%list ∧
    (∀ l1 p l2, platforms (db w) = (l1 ++ p :: l2)%list → name p ∉ (name <$> l2) →
       (submit release p = inr (distribute_to_platform release p) ∧
        results !! name p = Some (success_entry (distribute_to_platform release p))) ∨
       (∃ e, submit release p = inl e ∧
             results !! name p
             = Some {| entry_status := "failed"; entry_url := None;
                       entry_submission_id := None;
                       entry_error := Some (Py.str_exn e) |})) ∧
    (∀ k entry, results !! k = Some entry →
       (∃ url sid, entry = populated url sid ∧ url ≠ "" ∧ sid ≠ "") ∨
       (∃ msg,
          entry = {| entry_status := "failed"; entry_url := None;
                     entry_submission_id := None; entry_error := Some msg |})).
Proof.
  intros Hfound Hsubmit.
  assert (Hshape : ∀ r p, ∃ url sid,
     success_entry (distribute_to_platform r p) = populated url sid ∧
     url ≠ "" ∧ sid ≠ "").
  { intros r p. destruct (distribute_to_platform_fields r p)
      as (url & sid & Hu & Hs & Hne1 & Hne2).
    exists url, sid. unfold success_entry, populated. rewrite Hu, Hs. done. }
  split.
  { intros r r' p p' Hid Hname. unfold distribute_to_platform.
    rewrite Hid, Hname. reflexivity. }
  split.
  { intros r p Hn.
    destruct (distribute_to_platform_cases r p)
      as [[_ H] | [[Hn' _] | [[Hn' _] | (Hn' & _)]]]; [exact H | congruence..]. }
  split.
  { intros r p Hn.
    destruct (distribute_to_platform_cases r p)
      as [[Hn' _] | [[_ H] | [[Hn' _] | (_ & Hn' & _)]]]; [| exact H | |]; congruence. }
  split.
  { intros r p Hn.
    destruct (distribute_to_platform_cases r p)
      as [[Hn' _] | [[Hn' _] | [[_ H] | (_ & _ & Hn' & _)]]]; [| | exact H |]; congruence. }
  split.
  { intros r p Hs Ha Hy.
    destruct (distribute_to_platform_cases r p)
      as [[Hn' _] | [[Hn' _] | [[Hn' _] | (_ & _ & _ & H)]]]; [| | | exact H]; congruence. }
  split; [exact Hshape|].
  split; [apply distribute_to_platform_inj|].
  destruct (distribute_release_found submit release_id w release Hfound)
    as (_ & _ & _ & _ & Hnot).
  exists (results_of submit release w).
  split; [exact Hnot|]. split.
  - intros l1 p l2 Hps Hlast.
    assert (Hentry : results_of submit release w !! name p
                     = Some (outcome_entry submit release p)).
    { unfold results_of. rewrite Hps. by apply fan_out_lookup_last. }
    rewrite Hentry. unfold outcome_entry.
    destruct (submit release p) as [e | d] eqn:Hsub.
    + right. exists e. split; reflexivity.
    + left. rewrite (Hsubmit _ _ _ Hsub). split; reflexivity.
  - intros k entry Hk. unfold results_of in Hk.
    apply fan_out_lookup_inv in Hk as [Hk | (p & _ & _ & ->)].
    + simpl in Hk. rewrite lookup_empty in Hk. discriminate.
    + unfold outcome_entry. destruct (submit release p) as [e | d] eqn:Hsub.
      * right. exists (Py.str_exn e). reflexivity.
      * left. rewrite (Hsubmit _ _ _ Hsub). apply Hshape.
Qed.

Lemma submission_entries_follow_policy_witness :
  ∃ results,
    notifications (distribute_release_with Sample.flaky_submit 7
                     (Sample.world "processing" [Sample.spotify; Sample.tidal])).1
      = [("artist@example.org", "First Light", results)] ∧
    results !! "Spotify"
      = Some (populated "https://open.spotify.com/album/7" "spotify_7") ∧
    results !! "Tidal"
      = Some {| entry_status := "failed"; entry_url := None; entry_submission_id := None;
                entry_error := Some "503 Service Unavailable" |}.
Proof.
  destruct (submission_entries_follow_policy Sample.flaky_submit 7
              (Sample.world "processing" [Sample.spotify; Sample.tidal])
              (Sample.release "processing") eq_refl)
    as (_ & Hspotify & _ & _ & _ & _ & _ & results & Hnot & Hlast & _).
  - intros r p d. unfold Sample.flaky_submit.
    destruct (String.eqb (name p) "Tidal"); intros Hd.
    + discriminate Hd.
    + inversion Hd. reflexivity.
  - exists results. split; [exact Hnot|]. split.
    + destruct (Hlast [] Sample.spotify [Sample.tidal] eq_refl) as [[_ H] | (e & He & _)].
      * simpl. set_solver.
      * etrans; [exact H|].
        rewrite (Hspotify (Sample.release "processing") Sample.spotify eq_refl).
        reflexivity.
      * discriminate He.
    + destruct (Hlast [Sample.spotify] Sample.tidal [] eq_refl) as [[He _] | (e & He & H)].
      * simpl. apply not_elem_of_nil.
      * discriminate He.
      * inversion He; subst e. exact H.
Defined.

End WorkerClaims.

(** ** The endpoint that starts a distribution *)

Section RouteClaims.
Import Models.
Local Open Scope string_scope.

(** C2.  When the release of the logged-in user is not in status [draft],
    the endpoint answers 400 with the error "Release is not ready for
    distribution" and changes nothing: the tables are the ones it was
    given, so the release keeps its status and no distribution log row is
    written. *)
Theorem distribute_requires_draft
    (session_commit : DB -> Py.result DB)
    (current_user_id release_id : Z) (d : DB) (release : Release) :
  releases d !! release_id = Some release →
  user_id release = current_user_id →
  status release ≠ "draft" →
  let out := Routes.distribute_release session_commit current_user_id release_id d in
  out.2 = Routes.error_response 400 "Release is not ready for distribution" ∧
  out.1 = d ∧
  (status <$> releases out.1 !! release_id) = Some (status release) ∧
  distribution_logs out.1 = distribution_logs d.
Proof.
  intros Hfound Huser Hstatus out. subst out.
  unfold Routes.distribute_release. rewrite Hfound.
  rewrite (proj2 (Z.eqb_eq _ _) Huser). simpl.
  destruct (String.eqb (status release) "draft") eqn:Heq.
  - apply String.eqb_eq in Heq. contradiction.
  - simpl. rewrite Hfound. done.
Qed.

Lemma distribute_requires_draft_witness :
  let d := Sample.database "processing" [Sample.spotify] in
  let out := Routes.distribute_release Py.ret 1 7 d in
  out.2 = Routes.error_response 400 "Release is not ready for distribution" ∧
  out.1 = d ∧
  (status <$> releases out.1 !! 7%Z) = Some "processing" ∧
  distribution_logs out.1 = [].
Proof.
  apply (distribute_requires_draft Py.ret 1 7
           (Sample.database "processing" [Sample.spotify])
           (Sample.release "processing") eq_refl eq_refl).
  discriminate.
Defined.

End RouteClaims.

(** ** The metadata extractor and the audio validator *)

Module SampleFiles.
Import MetadataProcessor.
Local Open Scope string_scope.

Definition file (bytes : Z) : OS.Node :=
  {| OS.is_regular := true; OS.st_size := bytes; OS.st_mtime := 0 |}.

Definition disk : gmap string OS.Node :=
  {[ "/uploads/song.ogg" := file 1000000;
     "/uploads/short.mp3" := file 1000000;
     "/uploads/broken.mp3" := file 1000000;
     "/uploads/notes.txt" := file 120 ]}.

Definition stream (seconds : Z) (rate : option Z) : Audio :=
  {| info := {| info_length := Qmake seconds 1; info_bitrate := rate;
                info_sample_rate := 44100; info_channels := 2 |};
     tags := None; apic := []; pictures := [] |}.

(** A parser that reads three files: a 200 second stream whose container
    reports bitrate 0, a 29 second one, and one it cannot parse. *)
Definition load (fmt : AudioFormat) (path : string) : Py.result Audio :=
  if String.eqb path "/uploads/broken.mp3" then
    Py.raise Py.RuntimeError "can't sync to MPEG frame"
  else if String.eqb path "/uploads/short.mp3" then Py.ret (stream 29 (Some 160000))
  else Py.ret (stream 200 (Some 0)).

End SampleFiles.

Section ExtractorClaims.
Import MetadataProcessor.
Local Open Scope string_scope.

Variable load : AudioFormat -> string -> Py.result Audio.
Variable fs : gmap string OS.Node.

Definition supported_extensions : list string :=
  [".mp3"; ".flac"; ".wv"; ".ogg"; ".aac"; ".m4a"].

Lemma unsupported_lookup (ext : string) :
  ext ∉ supported_extensions → SUPPORTED_FORMATS !! ext = None.
Proof.
  unfold supported_extensions, SUPPORTED_FORMATS. intros Hext.
  repeat (rewrite lookup_insert_ne by (intros <-; apply Hext; set_solver)).
  apply lookup_singleton_ne. intros <-. apply Hext. set_solver.
Qed.

Lemma extract_missing file_path :
  OS.exists_ fs file_path = false →
  extract_metadata load fs file_path
  = Py.raise Py.FileNotFoundError ("Audio file not found: " +:+ file_path).
Proof. intros H. unfold extract_metadata. rewrite H. reflexivity. Qed.

Lemma extract_unsupported file_path :
  OS.exists_ fs file_path = true →
  SUPPORTED_FORMATS !! file_ext file_path = None →
  extract_metadata load fs file_path
  = Py.raise Py.ValueError ("Unsupported audio format: " +:+ file_ext file_path).
Proof. intros H1 H2. unfold extract_metadata. rewrite H1, H2. reflexivity. Qed.

Lemma extract_corrupt file_path fmt e :
  OS.exists_ fs file_path = true →
  SUPPORTED_FORMATS !! file_ext file_path = Some fmt →
  load fmt file_path = inl e →
  extract_metadata load fs file_path = inl e.
Proof.
  intros H1 H2 H3. unfold extract_metadata. rewrite H1, H2. simpl.
  rewrite H3. reflexivity.
Qed.

(** A successful extraction implies the file is there. *)
Lemma extract_ok_exists file_path m :
  extract_metadata load fs file_path = inr m → is_Some (fs !! file_path).
Proof.
  unfold extract_metadata. destruct (OS.exists_ fs file_path) eqn:Hex; simpl.
  - intros _. unfold OS.exists_ in Hex. by apply bool_decide_eq_true in Hex.
  - discriminate.
Qed.

(** C7.  [extract_metadata] raises [FileNotFoundError] for a path that does
    not exist; for a path that exists and whose lower-cased extension is
    none of the supported ones it raises [ValueError] ("Unsupported audio
    format"); and for a supported path that mutagen cannot parse it raises
    mutagen's exception again.  In each case the call raises, so no
    metadata is returned. *)
Theorem extract_metadata_failures (file_path : string) :
  (fs !! file_path = None →
     extract_metadata load fs file_path
     = inl (Py.Raise Py.FileNotFoundError ("Audio file not found: " +:+ file_path))) ∧
  (is_Some (fs !! file_path) →
   file_ext file_path ∉ supported_extensions →
     extract_metadata load fs file_path
     = inl (Py.Raise Py.ValueError ("Unsupported audio format: " +:+ file_ext file_path))) ∧
  (∀ fmt e,
     is_Some (fs !! file_path) →
     SUPPORTED_FORMATS !! file_ext file_path = Some fmt →
     load fmt file_path = inl e →
     extract_metadata load fs file_path = inl e) ∧
  ((fs !! file_path = None ∨
    file_ext file_path ∉ supported_extensions ∨
    ∃ fmt e, SUPPORTED_FORMATS !! file_ext file_path = Some fmt ∧
             load fmt file_path = inl e) →
   ∀ m, extract_metadata load fs file_path ≠ inr m).
Proof.
  assert (Hyes : is_Some (fs !! file_path) → OS.exists_ fs file_path = true).
  { intros H. unfold OS.exists_. by apply bool_decide_eq_true. }
  assert (Hno : fs !! file_path = None → OS.exists_ fs file_path = false).
  { intros H. unfold OS.exists_. apply bool_decide_eq_false. rewrite H. by intros [? ?]. }
  split; [intros H; apply extract_missing, (Hno H)|].
  split; [intros H Hext; apply extract_unsupported;
          [apply (Hyes H) | by apply unsupported_lookup]|].
  split; [intros fmt e H Hfmt Hload; apply (extract_corrupt file_path fmt e (Hyes H) Hfmt Hload)|].
  intros Hcase m Hm.
  destruct (fs !! file_path) as [node|] eqn:Hnode.
  - assert (Hex : OS.exists_ fs file_path = true) by (apply Hyes; by eexists).
    destruct Hcase as [Hnone | [Hext | (fmt & e & Hfmt & Hload)]].
    + discriminate Hnone.
    + rewrite extract_unsupported in Hm; [discriminate Hm | done | by apply unsupported_lookup].
    + rewrite (extract_corrupt _ fmt e) in Hm; [discriminate Hm | done | done | done].
  - rewrite extract_missing in Hm; [discriminate Hm|]. by apply Hno.
Qed.

End ExtractorClaims.

Section ValidatorClaims.
Import MetadataProcessor.
Local Open Scope string_scope.
Local Open Scope Z_scope.
Local Open Scope list_scope.

Variable load : AudioFormat -> string -> Py.result Audio.
Variable fs : gmap string OS.Node.

Lemma ltb_decide {A : Type} (x y : Z) (a b : A) :
  (if x <? y then a else b) = (if decide (x < y) then a else b).
Proof. destruct (Z.ltb_spec x y); case_decide; try reflexivity; lia. Qed.

(** The result of the rules once extraction and [getsize] have succeeded. *)
Lemma validate_audio_file_rules file_path m file_size :
  extract_metadata load fs file_path = inr m →
  OS.getsize fs file_path = inr file_size →
  validate_audio_file load fs file_path
  = inr {| is_valid := negb (duration m <? 30)%Z;
           errors := if (duration m <? 30)%Z
                     then ["Audio file must be at least 30 seconds long"] else [];
           warnings :=
             ((if (sample_rate m <? 44100)%Z then ["Sample rate is below 44.1kHz"] else [])
              ++ (if truthy (bitrate m) && (default 0 (bitrate m) <? 128000)%Z
                  then ["Bitrate is below 128kbps"] else [])
              ++ (if (file_size <? 480000)%Z
                  then ["File size seems unusually small"] else []))%list |}.
Proof.
  intros Hm Hsize. unfold validate_audio_file. rewrite Hm. simpl. rewrite Hsize. simpl.
  destruct (duration m <? 30)%Z, (sample_rate m <? 44100)%Z,
    (truthy (bitrate m) && (default 0 (bitrate m) <? 128000)%Z),
    (file_size <? 480000)%Z; reflexivity.
Qed.

Lemma validate_audio_file_failure file_path e :
  extract_metadata load fs file_path = inl e →
  validate_audio_file load fs file_path
  = inr {| is_valid := false;
           errors := ["Could not validate audio file: " +:+ Py.str_exn e];
           warnings := [] |}.
Proof. intros He. unfold validate_audio_file. rewrite He. reflexivity. Qed.

Lemma getsize_after_extract file_path m :
  extract_metadata load fs file_path = inr m →
  ∃ file_size, OS.getsize fs file_path = inr file_size.
Proof.
  intros Hm. destruct (extract_ok_exists load fs file_path m Hm) as [node Hnode].
  exists (OS.st_size node). unfold OS.getsize. rewrite Hnode. reflexivity.
Qed.

(** C5, as the code has it.  Once the metadata is extracted the four rules
    are all evaluated, in order: a duration under 30 seconds adds the one
    error; a sample rate under 44100 adds a warning; a bitrate that is
    present, not zero and under 128000 adds a warning; a file size under
    480000 bytes adds a warning.  [is_valid] is false exactly when the error
    list is non-empty, and it depends on the duration alone, never on the
    warnings. *)
Theorem validate_audio_file_applies_rules (file_path : string) (m : Metadata) (file_size : Z) :
  extract_metadata load fs file_path = inr m →
  OS.getsize fs file_path = inr file_size →
  ∃ v,
    validate_audio_file load fs file_path = inr v ∧
    errors v = (if decide (duration m < 30)
                then ["Audio file must be at least 30 seconds long"] else []) ∧
    warnings v
    = ((if decide (sample_rate m < 44100) then ["Sample rate is below 44.1kHz"] else [])
       ++ match bitrate m with
          | Some b => if decide (b ≠ 0 ∧ b < 128000) then ["Bitrate is below 128kbps"] else []
          | None => []
          end
       ++ (if decide (file_size < 480000)
           then ["File size seems unusually small"] else []))%list ∧
    (is_valid v = false ↔ errors v ≠ []) ∧
    (is_valid v = true ↔ 30 ≤ duration m) ∧
    (duration m = 29 → is_valid v = false ∧ length (errors v) = 1%nat) ∧
    (duration m = 30 → sample_rate m = 44100 → bitrate m = Some 160000 →
     file_size = 1000000 →
     is_valid v = true ∧ errors v = [] ∧ warnings v = []).
Proof.
  intros Hm Hsize. eexists. split; [by apply validate_audio_file_rules|]. simpl.
  assert (Hbit : (if truthy (bitrate m) && (default 0 (bitrate m) <? 128000)%Z
                  then ["Bitrate is below 128kbps"] else [])
                 = match bitrate m with
                   | Some b =>
                       if decide (b ≠ 0 ∧ b < 128000) then ["Bitrate is below 128kbps"] else []
                   | None => []
                   end).
  { destruct (bitrate m) as [b|]; simpl; [|reflexivity].
    destruct (Z.eqb_spec b 0), (Z.ltb_spec b 128000); simpl;
      case_decide; try reflexivity; lia. }
  rewrite Hbit. clear Hbit.
  rewrite !ltb_decide.
  split; [reflexivity|]. split; [reflexivity|].
  rewrite <- !ltb_decide.
  destruct (Z.ltb_spec (duration m) 30) as [Hshort | Hlong]; simpl.
  - split; [split; [discriminate | reflexivity]|].
    split; [split; [discriminate | lia]|].
    split; [intros _; split; reflexivity|]. intros Hd. lia.
  - split; [split; [discriminate | intros H; by destruct H]|].
    split; [split; [done | reflexivity]|].
    split; [intros Hd; lia|].
    intros _ Hs Hb Hf. split; [reflexivity|]. split; [reflexivity|].
    rewrite Hs, Hb, Hf. reflexivity.
Qed.

(** C10.  [validate_audio_file] never raises: for every file system, parser
    and path it returns a validation result.  When the extraction raised,
    the result is [is_valid = False] with the single error "Could not
    validate audio file: ..." and no warnings.  Every result, on either
    branch, has [is_valid] true exactly when its error list is empty. *)
Theorem validate_audio_file_total (file_path : string) :
  ∃ v,
    validate_audio_file load fs file_path = inr v ∧
    is_valid v = bool_decide (errors v = []) ∧
    (∀ e, extract_metadata load fs file_path = inl e →
       v = {| is_valid := false;
              errors := ["Could not validate audio file: " +:+ Py.str_exn e];
              warnings := [] |}) ∧
    (fs !! file_path = None ∨ file_ext file_path ∉ supported_extensions →
       is_valid v = false ∧ length (errors v) = 1%nat ∧ warnings v = []).
Proof.
  destruct (extract_metadata load fs file_path) as [e | m] eqn:Hm.
  - eexists. split; [by apply validate_audio_file_failure|].
    split; [reflexivity|]. split.
    + intros e' He'. inversion He'. reflexivity.
    + intros _. done.
  - destruct (getsize_after_extract file_path m Hm) as [file_size Hsize].
    eexists. split; [by apply validate_audio_file_rules|]. simpl.
    split; [destruct (duration m <? 30)%Z; reflexivity|].
    split; [intros e He; discriminate He|].
    intros Hbad. exfalso.
    pose proof (extract_ok_exists load fs file_path m Hm) as Hsome.
    destruct Hbad as [Hnone | Hext].
    + rewrite Hnone in Hsome. by destruct Hsome.
    + rewrite extract_unsupported in Hm; [discriminate Hm | | by apply unsupported_lookup].
      unfold OS.exists_. by apply bool_decide_eq_true.
Qed.

End ValidatorClaims.

Section ValidatorExamples.
Import MetadataProcessor.
Local Open Scope string_scope.
Local Open Scope Z_scope.
Local Open Scope list_scope.

(** The three failures and a success of the extractor, computed. *)
Example extract_metadata_examples :
  extract_metadata SampleFiles.load SampleFiles.disk "/uploads/missing.mp3"
    = inl (Py.Raise Py.FileNotFoundError "Audio file not found: /uploads/missing.mp3") ∧
  extract_metadata SampleFiles.load SampleFiles.disk "/uploads/notes.txt"
    = inl (Py.Raise Py.ValueError "Unsupported audio format: .txt") ∧
  extract_metadata SampleFiles.load SampleFiles.disk "/uploads/broken.mp3"
    = inl (Py.Raise Py.RuntimeError "can't sync to MPEG frame") ∧
  duration <$> (match extract_metadata SampleFiles.load SampleFiles.disk "/uploads/short.mp3"
                with inr m => Some m | inl _ => None end) = Some 29.
Proof. repeat split. Qed.

Lemma validate_audio_file_applies_rules_witness :
  ∃ v,
    validate_audio_file SampleFiles.load SampleFiles.disk "/uploads/short.mp3" = inr v ∧
    is_valid v = false ∧ length (errors v) = 1%nat ∧ warnings v = [].
Proof.
  destruct (validate_audio_file_applies_rules SampleFiles.load SampleFiles.disk
              "/uploads/short.mp3"
              {| duration := 29; bitrate := Some 160000; sample_rate := 44100;
                 channels := 2; tag_fields := ∅; artwork := None |}
              1000000 eq_refl eq_refl)
    as (v & Hv & _ & Hw & _ & _ & Hshort & _).
  exists v. split; [exact Hv|].
  destruct (Hshort eq_refl) as [Hinvalid Hone].
  split; [exact Hinvalid|]. split; [exact Hone|]. exact Hw.
Defined.

(** C5, as the claim words it, fails: a bitrate that is present and below
    128000 adds no warning when it is 0, because the guard tests the
    bitrate's truthiness. *)
Lemma zero_bitrate_adds_no_warning :
  ∃ m,
    extract_metadata SampleFiles.load SampleFiles.disk "/uploads/song.ogg" = inr m ∧
    bitrate m = Some 0 ∧ 0 < 128000 ∧
    validate_audio_file SampleFiles.load SampleFiles.disk "/uploads/song.ogg"
    = inr {| is_valid := true; errors := []; warnings := [] |}.
Proof.
  eexists. split; [reflexivity|]. split; [reflexivity|]. split; [lia|]. reflexivity.
Qed.

End ValidatorExamples.

(** ** Artwork processing *)

(** A small stand-in for Pillow, used to run [process_artwork]: an image is
    its size and mode, [thumbnail] computes the size Pillow's
    [Image.thumbnail] would pick (the box side that binds, the other side
    rounded to the nearer aspect ratio and at least 1), and the JPEG
    encoder refuses images with an alpha channel. *)
Module Pillow.
Local Open Scope string_scope.
Local Open Scope Z_scope.

Record Img : Set := { img_size : Z * Z; img_mode : string }.

(** [max(min(floor(n/d), ceil(n/d), key=...), 1)], where [closer f c] tells
    whether the floor is at least as close to the aspect ratio as the
    ceiling. *)
Definition round_aspect (n d : Z) (closer : Z -> Z -> bool) : Z :=
  let f := n / d in
  let c := if n mod d =? 0 then f else f + 1 in
  Z.max (if closer f c then f else c) 1.

Definition thumbnail_size (sz box : Z * Z) : Z * Z :=
  let '(w, h) := sz in
  let '(x, y) := box in
  if (x >=? w) && (y >=? h) then (w, h)
  else if x * h >=? y * w then
    (round_aspect (y * w) h (λ f c, Z.abs (w * y - f * h) <=? Z.abs (w * y - c * h)), y)
  else
    (x, round_aspect (x * h) w
          (λ f c, (f =? 0) || (Z.abs (w * f - x * h) * c <=? Z.abs (w * c - x * h) * f))).

Definition thumbnail (im : Img) (box : Z * Z) : Img :=
  {| img_size := thumbnail_size (img_size im) box; img_mode := img_mode im |}.

Definition convert (im : Img) (mode : string) : Img :=
  {| img_size := img_size im; img_mode := mode |}.

Definition save (im : Img) (fmt : string) (quality : Z) : Py.result string :=
  if String.eqb fmt "JPEG" && String.eqb (img_mode im) "RGBA" then
    Py.raise Py.OSError "cannot write mode RGBA as JPEG"
  else
    Py.ret (fmt +:+ " q=" +:+ Py.str_int quality +:+ " "
              +:+ Py.str_int (img_size im).1 +:+ "x" +:+ Py.str_int (img_size im).2
              +:+ " " +:+ img_mode im).

Definition Image_open (bytes : string) : Py.result Img :=
  if String.eqb bytes "png 2000x2000 RGB" then
    Py.ret {| img_size := (2000, 2000); img_mode := "RGB" |}
  else if String.eqb bytes "tiff 2800x2100 CMYK" then
    Py.ret {| img_size := (2800, 2100); img_mode := "CMYK" |}
  else if String.eqb bytes "png 1000x1000 RGB" then
    Py.ret {| img_size := (1000, 1000); img_mode := "RGB" |}
  else if String.eqb bytes "png 2000x2000 RGBA" then
    Py.ret {| img_size := (2000, 2000); img_mode := "RGBA" |}
  else Py.raise Py.OSError "cannot identify image file".

Definition process_artwork : string -> Z * Z -> Py.result MetadataProcessor.ProcessedArtwork :=
  MetadataProcessor.process_artwork Img img_size img_mode Image_open thumbnail convert save.

End Pillow.

Section ArtworkClaims.
Import MetadataProcessor.
Local Open Scope string_scope.
Local Open Scope Z_scope.
Local Open Scope list_scope.

Variable Image : Type.
Variable image_size : Image -> Z * Z.
Variable image_mode : Image -> string.
Variable Image_open : string -> Py.result Image.
Variable thumbnail : Image -> Z * Z -> Image.
Variable convert : Image -> string -> Image.
Variable save : Image -> string -> Z -> Py.result string.

(** What Pillow promises of [thumbnail]: the result fits the box, is no
    larger than the original, keeps the aspect ratio up to the rounding of
    one side to a whole pixel, and keeps the mode. *)
Definition thumbnail_contract (image : Image) (box : Z * Z) : Prop :=
  let t := thumbnail image box in
  (image_size t).1 ≤ box.1 ∧ (image_size t).2 ≤ box.2 ∧
  (image_size t).1 ≤ (image_size image).1 ∧ (image_size t).2 ≤ (image_size image).2 ∧
  Z.abs ((image_size t).1 * (image_size image).2 - (image_size t).2 * (image_size image).1)
    < Z.max (image_size image).1 (image_size image).2 ∧
  image_mode t = image_mode image.

(** What Pillow promises of [convert("RGB")]. *)
Definition convert_contract : Prop :=
  ∀ image, image_size (convert image "RGB") = image_size image ∧
           image_mode (convert image "RGB") = "RGB".

Abbreviation process := (process_artwork Image image_size image_mode Image_open
                       thumbnail convert save).
Abbreviation prepared := (prepare Image image_size image_mode thumbnail convert).
Abbreviation resize := (needs_resize Image image_size).

Lemma process_artwork_opened artwork_data max_size image :
  Image_open artwork_data = inr image →
  process artwork_data max_size
  = if ((image_size image).1 <? 1400) || ((image_size image).2 <? 1400)
    then Py.raise Py.ValueError
           "Could not process artwork: Artwork must be at least 1400x1400 pixels"
    else match save (prepared image max_size) "JPEG" 85 with
         | inr processed_data =>
             Py.ret {| data := processed_data;
                       width := (image_size (prepared image max_size)).1;
                       height := (image_size (prepared image max_size)).2;
                       format := "JPEG";
                       size := Z.of_nat (String.length processed_data) |}
         | inl e => Py.raise Py.ValueError ("Could not process artwork: " +:+ Py.str_exn e)
         end.
Proof.
  intros Hopen. unfold process_artwork. rewrite Hopen. simpl.
  destruct (((image_size image).1 <? 1400) || ((image_size image).2 <? 1400));
    [reflexivity|].
  destruct (save (prepared image max_size) "JPEG" 85); reflexivity.
Qed.

Lemma prepare_size image max_size :
  convert_contract →
  image_size (prepared image max_size)
  = if resize image max_size then image_size (thumbnail image max_size)
    else image_size image.
Proof.
  intros Hconv. unfold prepare.
  destruct (resize image max_size);
    match goal with
    | |- context [negb ?b] => destruct b
    end; simpl; try reflexivity; apply Hconv.
Qed.

Lemma prepare_mode image max_size :
  convert_contract →
  (resize image max_size = true → image_mode (thumbnail image max_size) = image_mode image) →
  image_mode (prepared image max_size)
  = if is_rgb Image image_mode image then image_mode image else "RGB".
Proof.
  intros Hconv Hmode. unfold prepare, is_rgb.
  destruct (resize image max_size).
  - destruct (String.eqb (image_mode (thumbnail image max_size)) "RGB"
              || String.eqb (image_mode (thumbnail image max_size)) "RGBA") eqn:Hrgb;
      rewrite (Hmode eq_refl) in Hrgb; rewrite Hrgb; simpl;
      [apply (Hmode eq_refl) | apply Hconv].
  - destruct (String.eqb (image_mode image) "RGB" || String.eqb (image_mode image) "RGBA");
      simpl; [reflexivity | apply Hconv].
Qed.

(** X22.  An image with a side under 1400 pixels is refused with the
    [ValueError] "Artwork must be at least 1400x1400 pixels".  An image with
    both sides at least 1400 is resized with [thumbnail] when a side exceeds
    [max_size] and left at its size otherwise, converted to RGB unless its
    mode is RGB or RGBA, and then always handed to the encoder as JPEG at
    quality 85, resized or not.  When the encoder returns, the result has
    format JPEG, holds the encoder's bytes, is within [max_size] (1400x1400
    by default), is never larger than the input, and keeps the aspect ratio
    up to rounding.  This is relative to Pillow keeping its contract for
    [thumbnail] on this image and for [convert]. *)
Theorem process_artwork_normalises
    (artwork_data : string) (max_size : Z * Z) (image : Image) :
  Image_open artwork_data = inr image →
  (resize image max_size = true → thumbnail_contract image max_size) →
  convert_contract →
  let w := (image_size image).1 in
  let h := (image_size image).2 in
  (w < 1400 ∨ h < 1400 →
     process artwork_data max_size
     = inl (Py.Raise Py.ValueError
              "Could not process artwork: Artwork must be at least 1400x1400 pixels")) ∧
  (1400 ≤ w → 1400 ≤ h →
   ∀ processed_data, save (prepared image max_size) "JPEG" 85 = inr processed_data →
   ∃ r,
     process artwork_data max_size = inr r ∧
     format r = "JPEG" ∧
     data r = processed_data ∧
     (width r, height r) = image_size (prepared image max_size) ∧
     width r ≤ max_size.1 ∧ height r ≤ max_size.2 ∧
     width r ≤ w ∧ height r ≤ h ∧
     Z.abs (width r * h - height r * w) < Z.max w h ∧
     (w ≤ max_size.1 → h ≤ max_size.2 → width r = w ∧ height r = h) ∧
     image_mode (prepared image max_size)
     = (if is_rgb Image image_mode image then image_mode image else "RGB")) ∧
  (∀ r, process artwork_data max_size = inr r →
     1400 ≤ w ∧ 1400 ≤ h ∧ format r = "JPEG" ∧
     save (prepared image max_size) "JPEG" 85 = inr (data r)).
Proof.
  intros Hopen Hthumb Hconv w h.
  rewrite (process_artwork_opened artwork_data max_size image Hopen).
  fold w h.
  split.
  { intros Hsmall.
    destruct (Z.ltb_spec w 1400), (Z.ltb_spec h 1400); simpl; try reflexivity; lia. }
  split.
  { intros Hw Hh processed_data Hsave.
    destruct (Z.ltb_spec w 1400), (Z.ltb_spec h 1400); simpl; try lia.
    rewrite Hsave. eexists. split; [reflexivity|]. simpl.
    split; [reflexivity|]. split; [reflexivity|].
    split; [by destruct (image_size (prepared image max_size))|].
    rewrite (prepare_size image max_size Hconv).
    assert (Hresize : resize image max_size = true ∨
                      (resize image max_size = false ∧ w ≤ max_size.1 ∧ h ≤ max_size.2)).
    { unfold needs_resize. fold w h.
      destruct (Z.gtb_spec w max_size.1), (Z.gtb_spec h max_size.2); simpl;
        try (left; reflexivity). right. split; [reflexivity | lia]. }
    destruct Hresize as [Hyes | (Hno & Hfw & Hfh)].
    - rewrite Hyes.
      destruct (Hthumb Hyes) as (Hbw & Hbh & Hlw & Hlh & Haspect & Hmode).
      fold w h in Hlw, Hlh, Haspect.
      repeat (split; [assumption|]).
      split.
      + intros Hfw Hfh. exfalso. unfold needs_resize in Hyes. fold w h in Hyes.
        destruct (Z.gtb_spec w max_size.1), (Z.gtb_spec h max_size.2);
          simpl in Hyes; try lia; discriminate Hyes.
      + apply (prepare_mode image max_size Hconv). intros _. exact Hmode.
    - rewrite Hno. fold w h.
      split; [exact Hfw|]. split; [exact Hfh|]. split; [lia|]. split; [lia|].
      split; [replace (w * h - h * w) with 0 by lia; simpl; lia|].
      split; [done|].
      apply (prepare_mode image max_size Hconv). intros Hyes.
      rewrite Hno in Hyes. discriminate Hyes. }
  intros r Hr.
  destruct (Z.ltb_spec w 1400), (Z.ltb_spec h 1400); simpl in Hr; try discriminate Hr.
  destruct (save (prepared image max_size) "JPEG" 85) as [e | processed_data];
    [discriminate Hr|].
  inversion Hr; subst r; simpl. done.
Qed.

(** C6.  The claim fails on images with an alpha channel.  An RGBA image
    with both sides at least 1400 pixels passes the size check and is left
    in mode RGBA, resized or not, since only modes other than RGB and RGBA
    are converted.  The JPEG encoder cannot write an alpha channel and
    raises, so [process_artwork] raises [ValueError] "Could not process
    artwork: ..." where the claim promises a JPEG: for these accepted
    images there is no output at all.  This is relative to Pillow's
    [thumbnail] keeping the mode and to its JPEG encoder refusing mode RGBA
    with the exception [e]. *)
Theorem process_artwork_fails_on_rgba
    (artwork_data : string) (max_size : Z * Z) (image : Image) (e : Py.exn) :
  Image_open artwork_data = inr image →
  1400 ≤ (image_size image).1 → 1400 ≤ (image_size image).2 →
  image_mode image = "RGBA" →
  (resize image max_size = true → image_mode (thumbnail image max_size) = "RGBA") →
  (∀ im, image_mode im = "RGBA" → save im "JPEG" 85 = inl e) →
  image_mode (prepared image max_size) = "RGBA" ∧
  process artwork_data max_size
  = inl (Py.Raise Py.ValueError ("Could not process artwork: " +:+ Py.str_exn e)).
Proof.
  intros Hopen Hw Hh Hmode Hthumb Hsave.
  assert (Hprep : image_mode (prepared image max_size) = "RGBA").
  { unfold prepare, is_rgb. destruct (resize image max_size).
    - rewrite (Hthumb eq_refl). simpl. apply (Hthumb eq_refl).
    - rewrite Hmode. simpl. exact Hmode. }
  split; [exact Hprep|].
  rewrite (process_artwork_opened artwork_data max_size image Hopen).
  destruct (Z.ltb_spec (image_size image).1 1400); [lia|].
  destruct (Z.ltb_spec (image_size image).2 1400); [lia|]. simpl.
  rewrite (Hsave _ Hprep). reflexivity.
Qed.

End ArtworkClaims.

Section ArtworkExamples.
Import MetadataProcessor.
Local Open Scope string_scope.
Local Open Scope Z_scope.
Local Open Scope list_scope.

Lemma process_artwork_normalises_witness :
  (∃ r,
     Pillow.process_artwork "tiff 2800x2100 CMYK" default_max_size = inr r ∧
     format r = "JPEG" ∧ data r = "JPEG q=85 1400x1050 RGB" ∧
     width r ≤ 1400 ∧ height r ≤ 1400) ∧
  Pillow.process_artwork "png 1000x1000 RGB" default_max_size
  = inl (Py.Raise Py.ValueError
           "Could not process artwork: Artwork must be at least 1400x1400 pixels").
Proof.
  assert (Hconv : convert_contract Pillow.Img Pillow.img_size Pillow.img_mode Pillow.convert).
  { intros image. split; reflexivity. }
  split.
  - destruct (process_artwork_normalises Pillow.Img Pillow.img_size Pillow.img_mode
                Pillow.Image_open Pillow.thumbnail Pillow.convert Pillow.save
                "tiff 2800x2100 CMYK" default_max_size
                {| Pillow.img_size := (2800, 2100); Pillow.img_mode := "CMYK" |}
                eq_refl)
      as (_ & Hok & _).
    + intros _. unfold thumbnail_contract. simpl. vm_compute.
      repeat split; discriminate.
    + exact Hconv.
    + destruct (Hok ltac:(simpl; lia) ltac:(simpl; lia) "JPEG q=85 1400x1050 RGB" eq_refl)
        as (r & Hr & Hfmt & Hdata & _ & Hw & Hh & _).
      exists r. repeat split; assumption.
  - destruct (process_artwork_normalises Pillow.Img Pillow.img_size Pillow.img_mode
                Pillow.Image_open Pillow.thumbnail Pillow.convert Pillow.save
                "png 1000x1000 RGB" default_max_size
                {| Pillow.img_size := (1000, 1000); Pillow.img_mode := "RGB" |}
                eq_refl)
      as (Hsmall & _).
    + intros Hresize. discriminate Hresize.
    + exact Hconv.
    + apply Hsmall. left. simpl. lia.
Defined.

Lemma process_artwork_fails_on_rgba_witness :
  Pillow.process_artwork "png 2000x2000 RGBA" default_max_size
  = inl (Py.Raise Py.ValueError
           "Could not process artwork: cannot write mode RGBA as JPEG").
Proof.
  apply (process_artwork_fails_on_rgba Pillow.Img Pillow.img_size Pillow.img_mode
           Pillow.Image_open Pillow.thumbnail Pillow.convert Pillow.save
           "png 2000x2000 RGBA" default_max_size
           {| Pillow.img_size := (2000, 2000); Pillow.img_mode := "RGBA" |}
           (Py.Raise Py.OSError "cannot write mode RGBA as JPEG") eq_refl).
  - simpl. lia.
  - simpl. lia.
  - reflexivity.
  - intros _. reflexivity.
  - intros im Hmode. unfold Pillow.save. rewrite Hmode. reflexivity.
Defined.

End ArtworkExamples.

(** ** Housekeeping *)

Section CleanupFacts.
Import Tasks.
Local Open Scope string_scope.
Local Open Scope Z_scope.
Local Open Scope list_scope.

(** A regular file whose modification time is before the cutoff. *)
Definition stale (cutoff_time : Z) (fs : gmap string OS.Node) (path : string) : bool :=
  match fs !! path with
  | Some n => OS.is_regular n && (OS.st_mtime n <? cutoff_time)
  | None => false
  end.

(** The file system after the loop has gone over [files]. *)
Definition sweep (cutoff_time : Z) (files : list string) (fs : gmap string OS.Node)
    : gmap string OS.Node :=
  foldl (λ fs path, if stale cutoff_time fs path then delete path fs else fs) fs files.

Lemma stale_other cutoff_time (fs : gmap string OS.Node) p q :
  p ≠ q → stale cutoff_time (delete p fs) q = stale cutoff_time fs q.
Proof. intros Hne. unfold stale. by rewrite lookup_delete_ne. Qed.

Lemma sweep_lookup cutoff_time files (fs : gmap string OS.Node) q :
  sweep cutoff_time files fs !! q
  = if bool_decide (q ∈ files) && stale cutoff_time fs q then None else fs !! q.
Proof.
  revert fs. induction files as [|p rest IH]; intros fs; [reflexivity|].
  unfold sweep in *. simpl. rewrite IH. clear IH.
  destruct (decide (q = p)) as [-> | Hne].
  - rewrite (bool_decide_eq_true_2 (p ∈ p :: rest)) by apply list_elem_of_here.
    destruct (stale cutoff_time fs p) eqn:Hstale.
    + unfold stale at 1. rewrite lookup_delete_eq. rewrite andb_false_r.
      reflexivity.
    + rewrite Hstale, andb_false_r. reflexivity.
  - assert (Hmem : bool_decide (q ∈ p :: rest) = bool_decide (q ∈ rest)).
    { apply bool_decide_ext. rewrite elem_of_cons. tauto. }
    rewrite Hmem.
    destruct (stale cutoff_time fs p).
    + rewrite stale_other by done. rewrite lookup_delete_ne by done. reflexivity.
    + reflexivity.
Qed.

Variable glob : gmap string OS.Node -> string -> list string.
Variable race : string -> Race.

(** One file of the scan, when nobody deletes it between [isfile] and
    [getmtime]: the loop goes on, and the file is gone exactly if it was
    stale, whether this process or another one removed it. *)
Lemma cleanup_loop_step cutoff_time p rest (fs : gmap string OS.Node) log :
  race p ≠ GoneBeforeStat →
  ∃ log',
    cleanup_loop race cutoff_time (p :: rest) (fs, log)
    = cleanup_loop race cutoff_time rest
        (if stale cutoff_time fs p then delete p fs else fs, log').
Proof.
  intros Hrace. simpl. unfold OS.isfile, stale.
  destruct (fs !! p) as [n|] eqn:Hp; [|by exists log].
  destruct (OS.is_regular n) eqn:Hreg; [|by exists log]. simpl.
  assert (Hstat : interfere (race p) GoneBeforeStat p fs = fs)
    by (destruct (race p); [reflexivity | contradiction | reflexivity]).
  rewrite Hstat. unfold OS.getmtime. rewrite Hp. simpl.
  destruct (OS.st_mtime n <? cutoff_time); [|by exists log].
  destruct (race p) eqn:Hr; simpl; [| contradiction |].
  - unfold OS.remove. rewrite Hp, Hreg. simpl. by eexists.
  - unfold OS.remove. rewrite lookup_delete_eq. simpl. by eexists.
Qed.

Lemma cleanup_loop_sweeps cutoff_time files (fs : gmap string OS.Node) log :
  (∀ p, p ∈ files → race p ≠ GoneBeforeStat) →
  ∃ log',
    cleanup_loop race cutoff_time files (fs, log)
    = (sweep cutoff_time files fs, log', inr tt).
Proof.
  revert fs log. induction files as [|p rest IH]; intros fs log Hrace.
  - by exists log.
  - destruct (cleanup_loop_step cutoff_time p rest fs log) as [log1 Hstep];
      [apply Hrace, list_elem_of_here|].
    rewrite Hstep.
    apply IH. intros q Hq. by apply Hrace, list_elem_of_further.
Qed.

(** A scan in which [p] vanishes between [isfile] and [getmtime]: the loop
    sweeps the files before [p] and stops at [p] with the error of
    [getmtime], which no handler of the loop catches. *)
Lemma cleanup_loop_vanish cutoff_time before p after (fs : gmap string OS.Node) log node :
  (∀ q, q ∈ before → race q ≠ GoneBeforeStat) →
  fs !! p = Some node → OS.is_regular node = true →
  race p = GoneBeforeStat →
  ∃ log',
    cleanup_loop race cutoff_time (before ++ p :: after) (fs, log)
    = (delete p (sweep cutoff_time before fs), log', OS.no_such_file p).
Proof.
  revert fs log. induction before as [|q rest IH]; intros fs log Hrace Hp Hreg Hvanish.
  - exists log. simpl. unfold OS.isfile. rewrite Hp, Hreg, Hvanish. simpl.
    unfold OS.getmtime. rewrite lookup_delete_eq. reflexivity.
  - assert (Hne : q ≠ p).
    { intros ->. by apply (Hrace p (list_elem_of_here _ _)). }
    destruct (cleanup_loop_step cutoff_time q (rest ++ p :: after) fs log)
      as [log1 Hstep]; [apply Hrace, list_elem_of_here|].
    change ((q :: rest) ++ p :: after) with (q :: rest ++ p :: after).
    rewrite Hstep.
    change (sweep cutoff_time (q :: rest) fs)
      with (sweep cutoff_time rest (if stale cutoff_time fs q then delete q fs else fs)).
    apply IH; [intros r Hr; by apply Hrace, list_elem_of_further | | exact Hreg | exact Hvanish].
    destruct (stale cutoff_time fs q); [by rewrite lookup_delete_ne | exact Hp].
Qed.

End CleanupFacts.

Module SampleDisk.
Import Tasks.
Local Open Scope string_scope.
Local Open Scope Z_scope.

Definition hour : Z := 3600 * 1000000.

Definition disk : gmap string OS.Node :=
  {[ "/srv/temp" := {| OS.is_regular := false; OS.st_size := 4096; OS.st_mtime := 0 |};
     "/srv/temp/old.wav" :=
       {| OS.is_regular := true; OS.st_size := 10; OS.st_mtime := 2 * hour |};
     "/srv/temp/claimed.wav" :=
       {| OS.is_regular := true; OS.st_size := 10; OS.st_mtime := 3 * hour |};
     "/srv/temp/new.wav" :=
       {| OS.is_regular := true; OS.st_size := 10; OS.st_mtime := 10 * hour - 5 |} ]}.

Definition glob (fs : gmap string OS.Node) (pattern : string) : list string :=
  if String.eqb pattern "/srv/temp/*" then
    ["/srv/temp/claimed.wav"; "/srv/temp/new.wav"; "/srv/temp/old.wav"]
  else [].

(** Another worker deletes [claimed.wav] just before this one removes it. *)
Definition race (path : string) : Race :=
  if String.eqb path "/srv/temp/claimed.wav" then GoneBeforeRemove else Quiet.

(** Another worker deletes [claimed.wav] just before this one reads its
    modification time. *)
Definition early_race (path : string) : Race :=
  if String.eqb path "/srv/temp/claimed.wav" then GoneBeforeStat else Quiet.

End SampleDisk.

Section CleanupClaims.
Import Tasks.
Local Open Scope string_scope.
Local Open Scope Z_scope.
Local Open Scope list_scope.

(** C9.  The claim fails when a file vanishes between the scan and the
    reading of its modification time.  [os.path.getmtime] is called outside
    the [try] that guards [os.remove], so when another process deletes a
    scanned regular file after the [isfile] test and before [getmtime], the
    call raises [FileNotFoundError] out of [cleanup_old_files]: the
    vanished file is not treated as benign, and the files the scan lists
    after it are never looked at, the stale ones among them included. *)
Theorem cleanup_old_files_aborts_when_file_vanishes
    (glob : gmap string OS.Node -> string -> list string) (race : string -> Race)
    (now : Z) (fs : gmap string OS.Node) (directory : string) (hours : Z)
    (pattern : option string)
    (before : list string) (p : string) (after : list string) (node : OS.Node) :
  is_Some (fs !! directory) →
  scanned glob fs directory pattern = before ++ p :: after →
  (∀ q, q ∈ before → race q ≠ GoneBeforeStat) →
  fs !! p = Some node → OS.is_regular node = true →
  race p = GoneBeforeStat →
  let out := cleanup_old_files glob race now fs directory hours pattern in
  out.2 = inl (Py.Raise Py.FileNotFoundError
                 ("[Errno 2] No such file or directory: '" +:+ p +:+ "'")) ∧
  (∀ q n, q ∈ after → q ∉ before → q ≠ p → fs !! q = Some n →
     out.1.1 !! q = Some n).
Proof.
  intros Hdir Hscan Hrace Hp Hreg Hvanish out.
  assert (Hex : OS.exists_ fs directory = true)
    by (unfold OS.exists_; by apply bool_decide_eq_true).
  destruct (cleanup_loop_vanish race (now - timedelta_hours hours) before p after fs []
              node Hrace Hp Hreg Hvanish) as [log Hloop].
  assert (Hout : out = (delete p (sweep (now - timedelta_hours hours) before fs), log,
                        OS.no_such_file p)).
  { subst out. unfold cleanup_old_files. rewrite Hex. simpl. rewrite Hscan. exact Hloop. }
  rewrite Hout. simpl. split; [reflexivity|].
  intros q n Hafter Hbefore Hne Hq.
  rewrite lookup_delete_ne by done. rewrite sweep_lookup.
  rewrite bool_decide_eq_false_2 by exact Hbefore. exact Hq.
Qed.

Lemma cleanup_old_files_aborts_when_file_vanishes_witness :
  let out := cleanup_old_files SampleDisk.glob SampleDisk.early_race (10 * SampleDisk.hour)
               SampleDisk.disk "/srv/temp" 1 None in
  out.2 = inl (Py.Raise Py.FileNotFoundError
                 "[Errno 2] No such file or directory: '/srv/temp/claimed.wav'") ∧
  stale (10 * SampleDisk.hour - timedelta_hours 1) SampleDisk.disk "/srv/temp/old.wav" = true ∧
  out.1.1 !! "/srv/temp/old.wav" = SampleDisk.disk !! "/srv/temp/old.wav" ∧
  is_Some (out.1.1 !! "/srv/temp/old.wav").
Proof.
  destruct (cleanup_old_files_aborts_when_file_vanishes SampleDisk.glob SampleDisk.early_race
              (10 * SampleDisk.hour) SampleDisk.disk "/srv/temp" 1 None
              [] "/srv/temp/claimed.wav" ["/srv/temp/new.wav"; "/srv/temp/old.wav"]
              {| OS.is_regular := true; OS.st_size := 10;
                 OS.st_mtime := 3 * SampleDisk.hour |})
    as [Hraise Hleft].
  - by eexists.
  - reflexivity.
  - intros q Hq. by apply elem_of_nil in Hq.
  - reflexivity.
  - reflexivity.
  - reflexivity.
  - split; [exact Hraise|]. split; [reflexivity|].
    assert (Hold : (cleanup_old_files SampleDisk.glob SampleDisk.early_race
                      (10 * SampleDisk.hour) SampleDisk.disk "/srv/temp" 1 None).1.1
                     !! "/srv/temp/old.wav"
                   = Some {| OS.is_regular := true; OS.st_size := 10;
                             OS.st_mtime := 2 * SampleDisk.hour |}).
    { apply Hleft; [set_solver | set_solver | discriminate | reflexivity]. }
    split; [exact Hold | rewrite Hold; by eexists].
Defined.

(** X23.  For a directory that exists, whatever the age threshold and
    whatever the scan yields, [cleanup_old_files] returns normally,
    provided no scanned file vanishes between the [isfile] test and
    [getmtime].  Each scanned regular file whose modification time is
    before the cutoff is gone afterwards.  Each regular file that was not
    scanned, or whose modification time is at or after the cutoff, is
    still there with its size and modification time.  Whatever is not a
    regular file is still there, and no path appears.  This holds also
    when another process deletes a stale file just before [os.remove]:
    the [OSError] is caught and logged and the loop goes on with the
    remaining files. *)
Theorem cleanup_old_files_removes_stale_files
    (glob : gmap string OS.Node -> string -> list string) (race : string -> Race)
    (now : Z) (fs : gmap string OS.Node) (directory : string) (hours : Z)
    (pattern : option string) :
  is_Some (fs !! directory) →
  (∀ p, p ∈ scanned glob fs directory pattern → race p ≠ GoneBeforeStat) →
  let cutoff_time := now - timedelta_hours hours in
  let files := scanned glob fs directory pattern in
  let out := cleanup_old_files glob race now fs directory hours pattern in
  out.2 = inr tt ∧
  (∀ p node, p ∈ files → fs !! p = Some node →
     OS.is_regular node = true → OS.st_mtime node < cutoff_time →
     out.1.1 !! p = None) ∧
  (∀ p node, fs !! p = Some node → OS.is_regular node = true →
     p ∉ files ∨ cutoff_time ≤ OS.st_mtime node →
     out.1.1 !! p = Some node) ∧
  (∀ p node, fs !! p = Some node → OS.is_regular node = false →
     ∃ node', out.1.1 !! p = Some node' ∧ OS.is_regular node' = false) ∧
  (∀ p, fs !! p = None → out.1.1 !! p = None).
Proof.
  intros Hdir Hrace cutoff_time files out.
  assert (Hex : OS.exists_ fs directory = true)
    by (unfold OS.exists_; by apply bool_decide_eq_true).
  destruct (cleanup_loop_sweeps race cutoff_time files fs [] Hrace) as [log Hloop].
  assert (Hout : out = (sweep cutoff_time files fs, log, inr tt)).
  { subst out. unfold cleanup_old_files. rewrite Hex. simpl. exact Hloop. }
  rewrite Hout. simpl. split; [reflexivity|].
  split; [|split; [|split]].
  - intros p node Hp Hnode Hreg Hold. rewrite sweep_lookup.
    rewrite bool_decide_eq_true_2 by exact Hp.
    unfold stale. rewrite Hnode, Hreg.
    destruct (Z.ltb_spec (OS.st_mtime node) cutoff_time); [reflexivity | lia].
  - intros p node Hnode _ Hkeep. rewrite sweep_lookup.
    destruct Hkeep as [Hp | Hnew].
    + rewrite bool_decide_eq_false_2 by exact Hp. exact Hnode.
    + unfold stale. rewrite Hnode.
      destruct (Z.ltb_spec (OS.st_mtime node) cutoff_time); [lia|].
      rewrite !andb_false_r. reflexivity.
  - intros p node Hnode Hreg. exists node. split; [|exact Hreg].
    rewrite sweep_lookup. unfold stale. rewrite Hnode, Hreg. simpl.
    rewrite andb_false_r. reflexivity.
  - intros p Hnone. rewrite sweep_lookup. unfold stale. rewrite Hnone.
    rewrite andb_false_r. reflexivity.
Qed.

Lemma cleanup_old_files_removes_stale_files_witness :
  let out := cleanup_old_files SampleDisk.glob SampleDisk.race (10 * SampleDisk.hour)
               SampleDisk.disk "/srv/temp" 1 None in
  out.2 = inr tt ∧
  out.1.1 !! "/srv/temp/old.wav" = None ∧
  out.1.1 !! "/srv/temp/claimed.wav" = None ∧
  out.1.1 !! "/srv/temp/new.wav" = SampleDisk.disk !! "/srv/temp/new.wav" ∧
  is_Some (out.1.1 !! "/srv/temp").
Proof.
  destruct (cleanup_old_files_removes_stale_files SampleDisk.glob SampleDisk.race
              (10 * SampleDisk.hour) SampleDisk.disk "/srv/temp" 1 None)
    as (Hret & Hgone & Hkept & Hdirs & _).
  - by eexists.
  - intros p Hp. simpl in Hp. unfold SampleDisk.race.
    destruct (String.eqb p "/srv/temp/claimed.wav"); discriminate.
  - split; [exact Hret|].
    split; [eapply Hgone; [simpl; set_solver | reflexivity | reflexivity | reflexivity]|].
    split; [eapply Hgone; [simpl; set_solver | reflexivity | reflexivity | reflexivity]|].
    split.
    + eapply Hkept; [reflexivity | reflexivity |]. right. vm_compute. discriminate.
    + destruct (Hdirs "/srv/temp" _ eq_refl eq_refl) as (node' & Hnode' & _).
      rewrite Hnode'. by eexists.
Defined.

(** The run above, computed: the file another worker took first is logged
    as a failed removal and the loop goes on. *)
Example cleanup_logs_vanished_file :
  (cleanup_old_files SampleDisk.glob SampleDisk.race (10 * SampleDisk.hour)
     SampleDisk.disk "/srv/temp" 1 None).1.2
  = ["Failed to remove /srv/temp/claimed.wav: [Errno 2] No such file or directory: '/srv/temp/claimed.wav'";
     "Removed old file: /srv/temp/old.wav"].
Proof. reflexivity. Qed.

End CleanupClaims.

(** * Further properties of the modelled code *)

(** ** The distribution worker: the failure path, the frame, the trace *)

Section WorkerRuns.
Import Models Tasks.
Local Open Scope string_scope.
Local Open Scope list_scope.

Variable submit : Release -> Platform -> Py.result (gmap string string).

(** The line the loop logs for a platform whose submission raised. *)
Definition failure_log (release : Release) (platform : Platform) : list string :=
  match submit release platform with
  | inl e => ["Distribution to " +:+ name platform +:+ " failed: " +:+ Py.str_exn e]
  | inr _ => []
  end.

Lemma attempt_logged release p acc :
  logged (attempt submit release p acc).2 = logged acc.2 ++ failure_log release p.
Proof.
  destruct acc as [results w]. unfold attempt, failure_log.
  destruct (submit release p); simpl; [reflexivity | by rewrite app_nil_r].
Qed.

Lemma fan_out_logged release ps acc :
  logged (fan_out submit release ps acc).2
  = logged acc.2 ++ concat (failure_log release <$> ps).
Proof.
  revert acc. induction ps as [|p ps IH]; intros acc; simpl.
  - by rewrite app_nil_r.
  - rewrite IH, attempt_logged, <- app_assoc. reflexivity.
Qed.

End WorkerRuns.

Section WorkerRunClaims.
Import Models Tasks.
Local Open Scope string_scope.
Local Open Scope list_scope.

(** X1.  A run for a release id that is not in the table raises
    [ValueError] "Release <id> not found", logs it, reports FAILURE, and
    touches neither the tables nor the notification queue; no platform is
    attempted. *)
Theorem distribute_release_unknown_release
    (submit : Release -> Platform -> Py.result (gmap string string))
    (release_id : Z) (w : World) :
  releases (db w) !! release_id = None →
  let out := distribute_release_with submit release_id w in
  let msg := "Release " +:+ Py.str_int release_id +:+ " not found" in
  out.2 = inl (Py.Raise Py.ValueError msg) ∧
  db out.1 = db w ∧
  notifications out.1 = notifications w ∧
  task_states out.1
    = task_states w ++ [("PROGRESS", "Preparing distribution..."); ("FAILURE", msg)] ∧
  logged out.1
    = logged w ++ ["Release distribution failed for " +:+ Py.str_int release_id
                     +:+ ": " +:+ msg].
Proof.
  intros Hnone out msg. subst out msg.
  unfold distribute_release_with, distribute_release_body.
  cbn [db update_state]. rewrite Hnone. simpl.
  rewrite <- app_assoc. done.
Qed.

Lemma distribute_release_unknown_release_witness :
  let out := distribute_release 8 (Sample.world "draft" [Sample.spotify]) in
  out.2 = inl (Py.Raise Py.ValueError "Release 8 not found") ∧
  db out.1 = Sample.database "draft" [Sample.spotify] ∧
  notifications out.1 = [] ∧
  task_states out.1
    = [("PROGRESS", "Preparing distribution..."); ("FAILURE", "Release 8 not found")] ∧
  logged out.1 = ["Release distribution failed for 8: Release 8 not found"].
Proof.
  apply (distribute_release_unknown_release
           (λ r p, Py.ret (distribute_to_platform r p)) 8
           (Sample.world "draft" [Sample.spotify])).
  reflexivity.
Defined.



(** X3.  The states and the log of a run for an existing release: first
    "Preparing distribution...", then one PROGRESS line per platform in
    table order, whether its submission returned or raised, then SUCCESS;
    and one logged error per submission that raised, in the same order. *)
Theorem distribute_release_trace
    (submit : Release -> Platform -> Py.result (gmap string string))
    (release_id : Z) (w : World) (release : Release) :
  releases (db w) !! release_id = Some release →
  let out := distribute_release_with submit release_id w in
  task_states out.1
    = task_states w ++ [("PROGRESS", "Preparing distribution...")]
        ++ (progress_of <$> platforms (db w))
        ++ [("SUCCESS", "Distribution completed")] ∧
  logged out.1 = logged w ++ concat (failure_log submit release <$> platforms (db w)).
Proof.
  intros Hfound out. subst out.
  unfold distribute_release_with, distribute_release_body.
  cbn [db update_state]. rewrite Hfound.
  pose proof (fan_out_states submit release (platforms (db w))
                (∅, update_state "PROGRESS" "Preparing distribution..." w)) as Hst.
  pose proof (fan_out_logged submit release (platforms (db w))
                (∅, update_state "PROGRESS" "Preparing distribution..." w)) as Hlog.
  destruct (fan_out submit release (platforms (db w))
              (∅, update_state "PROGRESS" "Preparing distribution..." w))
    as [results w'].
  simpl in Hst, Hlog. simpl. rewrite Hst, Hlog.
  split; [by rewrite <- !app_assoc | reflexivity].
Qed.

Lemma distribute_release_trace_witness :
  let out := distribute_release_with Sample.flaky_submit 7
               (Sample.world "processing" [Sample.tidal; Sample.spotify]) in
  task_states out.1
    = [("PROGRESS", "Preparing distribution..."); ("PROGRESS", "Distributing to Tidal...");
       ("PROGRESS", "Distributing to Spotify..."); ("SUCCESS", "Distribution completed")] ∧
  logged out.1 = ["Distribution to Tidal failed: 503 Service Unavailable"].
Proof.
  apply (distribute_release_trace Sample.flaky_submit 7
           (Sample.world "processing" [Sample.tidal; Sample.spotify])
           (Sample.release "processing") eq_refl).
Defined.

End WorkerRunClaims.

(** ** The URL template *)

Section UrlShape.
Import Models Tasks.
Local Open Scope string_scope.

(** Does [c] occur in [s]? *)
Fixpoint has_char (c : ascii) (s : string) : bool :=
  match s with
  | EmptyString => false
  | String x s' => Ascii.eqb x c || has_char c s'
  end.

Lemma has_char_app c s t : has_char c (s +:+ t) = has_char c s || has_char c t.
Proof.
  induction s as [|x s IH]; simpl; [reflexivity|].
  rewrite IH. apply orb_assoc.
Qed.

Lemma string_app_assoc (s t u : string) : (s +:+ t) +:+ u = s +:+ t +:+ u.
Proof.
  induction s as [|x s IH]; [reflexivity|].
  change (String x ((s +:+ t) +:+ u) = String x (s +:+ t +:+ u)).
  by rewrite IH.
Qed.

Lemma remove_spaces_no_space s : has_char " " (Py.remove_spaces s) = false.
Proof.
  induction s as [|x s IH]; simpl; [reflexivity|].
  destruct (Ascii.eqb x " ") eqn:Hx; simpl; [exact IH|].
  rewrite Hx. exact IH.
Qed.

Lemma uint_no_space d : has_char " " (NilEmpty.string_of_uint d) = false.
Proof. induction d; simpl; try reflexivity; exact IHd. Qed.

Lemma str_int_no_space n : has_char " " (Py.str_int n) = false.
Proof.
  unfold Py.str_int, NilZero.string_of_int, NilZero.string_of_uint.
  destruct (Z.to_int n) as [d | d]; destruct d; simpl; try reflexivity;
    apply uint_no_space.
Qed.

(** X4.  Whatever the platform is called, the URL the placeholder builds
    starts with "https://", contains no space (the generic template strips
    the spaces of the name) and ends with the release id in decimal. *)
Theorem distribute_to_platform_url_shape (r : Release) (p : Platform) :
  ∃ url stem,
    distribute_to_platform r p !! "url" = Some url ∧
    String.prefix "https://" url = true ∧
    has_char " " url = false ∧
    url = stem +:+ Py.str_int (id r).
Proof.
  unfold distribute_to_platform.
  repeat match goal with
         | |- context [if ?b then _ else _] => destruct b
         end.
  - exists ("https://open.spotify.com/album/" +:+ Py.str_int (id r)),
      "https://open.spotify.com/album/".
    split; [apply lookup_insert_eq|]. split; [reflexivity|].
    split; [|reflexivity]. rewrite has_char_app, str_int_no_space. reflexivity.
  - exists ("https://music.apple.com/album/" +:+ Py.str_int (id r)),
      "https://music.apple.com/album/".
    split; [apply lookup_insert_eq|]. split; [reflexivity|].
    split; [|reflexivity]. rewrite has_char_app, str_int_no_space. reflexivity.
  - exists ("https://music.youtube.com/playlist?list=" +:+ Py.str_int (id r)),
      "https://music.youtube.com/playlist?list=".
    split; [apply lookup_insert_eq|]. split; [reflexivity|].
    split; [|reflexivity]. rewrite has_char_app, str_int_no_space. reflexivity.
  - exists ("https://" +:+ Py.remove_spaces (Py.lower (name p)) +:+ ".com/release/"
              +:+ Py.str_int (id r)),
      ("https://" +:+ Py.remove_spaces (Py.lower (name p)) +:+ ".com/release/").
    split; [apply lookup_insert_eq|].
    split; [simpl; match goal with
                   | |- String.prefix _ ?x = true => destruct x; reflexivity
                   end|].
    split.
    + rewrite !has_char_app, remove_spaces_no_space, str_int_no_space. reflexivity.
    + rewrite !string_app_assoc. reflexivity.
Qed.

End UrlShape.

(** ** Housekeeping: what the cleanup never does, and how runs compose *)

Section CleanupInvariant.
Import Tasks.
Local Open Scope string_scope.
Local Open Scope Z_scope.
Local Open Scope list_scope.

Variable race : string -> Race.

(** What can make a path disappear during a sweep: it is a regular file,
    and it is older than the cutoff or another process deletes it. *)
Definition may_go (cutoff_time : Z) (fs : gmap string OS.Node) (p : string) : Prop :=
  ∃ n, fs !! p = Some n ∧ OS.is_regular n = true ∧
       (OS.st_mtime n < cutoff_time ∨ race p ≠ Quiet).

(** [fs'] is [fs] without some of the [files] that may go. *)
Definition loses (cutoff_time : Z) (files : list string) (fs fs' : gmap string OS.Node)
    : Prop :=
  ∀ q, fs' !! q = fs !! q ∨ (fs' !! q = None ∧ q ∈ files ∧ may_go cutoff_time fs q).

(** One file of the scan, whatever the race: the loop goes on or stops
    with an exception, and the file system is the same or has lost this
    one file, which was one that may go. *)
Lemma cleanup_loop_step_any cutoff_time p rest (fs : gmap string OS.Node) log :
  ∃ fs2 log2,
    (fs2 = fs ∨ (fs2 = delete p fs ∧ may_go cutoff_time fs p)) ∧
    (cleanup_loop race cutoff_time (p :: rest) (fs, log)
       = cleanup_loop race cutoff_time rest (fs2, log2) ∨
     ∃ e, cleanup_loop race cutoff_time (p :: rest) (fs, log) = (fs2, log2, inl e)).
Proof.
  simpl. destruct (OS.isfile fs p) eqn:Hfile; [|exists fs, log; auto].
  unfold OS.isfile in Hfile.
  destruct (fs !! p) as [n|] eqn:Hp; [|discriminate Hfile].
  destruct (race p) eqn:Hr; simpl.
  - unfold OS.getmtime, OS.remove. rewrite Hp, Hfile. simpl.
    destruct (Z.ltb_spec (OS.st_mtime n) cutoff_time); [|eexists _, _; eauto].
    exists (delete p fs). eexists. split; [|left; reflexivity].
    right. split; [reflexivity|]. exists n. auto.
  - unfold OS.getmtime. rewrite lookup_delete_eq. simpl.
    exists (delete p fs), log. split; [|right; eauto].
    right. split; [reflexivity|]. exists n. rewrite Hr. repeat split; auto.
  - unfold OS.getmtime, OS.remove. rewrite Hp. simpl.
    destruct (OS.st_mtime n <? cutoff_time); [|eexists _, _; eauto].
    rewrite lookup_delete_eq. simpl. exists (delete p fs). eexists.
    split; [|left; reflexivity].
    right. split; [reflexivity|]. exists n. rewrite Hr. repeat split; auto.
Qed.

Lemma loses_step cutoff_time p rest (fs fs2 fs3 : gmap string OS.Node) :
  fs2 = fs ∨ (fs2 = delete p fs ∧ may_go cutoff_time fs p) →
  loses cutoff_time rest fs2 fs3 →
  loses cutoff_time (p :: rest) fs fs3.
Proof.
  intros Hstep Hrest q.
  destruct Hstep as [-> | [-> Hgo]].
  - destruct (Hrest q) as [Hsame | (Hnone & Hq & Hgo)]; [by left|].
    right. split; [exact Hnone|]. split; [by apply list_elem_of_further | exact Hgo].
  - destruct (decide (q = p)) as [-> | Hne].
    + right. split; [|split; [apply list_elem_of_here | exact Hgo]].
      destruct (Hrest p) as [Hsame | (Hnone & _)]; [|exact Hnone].
      rewrite Hsame. apply lookup_delete_eq.
    + destruct (Hrest q) as [Hsame | (Hnone & Hq & (n & Hn & Hreg & Hwhy))].
      * left. rewrite Hsame. by apply lookup_delete_ne.
      * right. split; [exact Hnone|]. split; [by apply list_elem_of_further|].
        exists n. rewrite lookup_delete_ne in Hn by done. auto.
Qed.

Lemma cleanup_loop_loses cutoff_time files (fs : gmap string OS.Node) log :
  loses cutoff_time files fs (cleanup_loop race cutoff_time files (fs, log)).1.1.
Proof.
  revert fs log. induction files as [|p rest IH]; intros fs log.
  - intros q. by left.
  - destruct (cleanup_loop_step_any cutoff_time p rest fs log)
      as (fs2 & log2 & Hfs2 & Hnext).
    apply (loses_step cutoff_time p rest fs fs2); [exact Hfs2|].
    destruct Hnext as [Hgo | [e Hstop]].
    + rewrite Hgo. apply IH.
    + rewrite Hstop. intros q. by left.
Qed.

End CleanupInvariant.

Section CleanupQuiet.
Import Tasks.
Local Open Scope string_scope.
Local Open Scope Z_scope.
Local Open Scope list_scope.

Variable glob : gmap string OS.Node -> string -> list string.
Variable race : string -> Race.

(** The files a call looks at: none when the directory does not exist. *)
Definition scan_of (fs : gmap string OS.Node) (directory : string) (pattern : option string)
    : list string :=
  if OS.exists_ fs directory then scanned glob fs directory pattern else [].

Lemma cleanup_old_files_quiet now (fs : gmap string OS.Node) directory hours pattern :
  (∀ p, p ∈ scan_of fs directory pattern → race p ≠ GoneBeforeStat) →
  ∃ log,
    cleanup_old_files glob race now fs directory hours pattern
    = (sweep (now - timedelta_hours hours) (scan_of fs directory pattern) fs, log, inr tt).
Proof.
  intros Hrace. unfold cleanup_old_files, scan_of in *.
  destruct (OS.exists_ fs directory); simpl.
  - apply (cleanup_loop_sweeps race _ _ fs [] Hrace).
  - by exists [].
Qed.

End CleanupQuiet.

Section CleanupMoreClaims.
Import Tasks.
Local Open Scope string_scope.
Local Open Scope Z_scope.
Local Open Scope list_scope.

(** X5.  Whichever scanned files other processes delete while the loop
    runs, and also when the call raises, [cleanup_old_files] makes no path
    appear and takes away regular files only.  A regular file is afterwards
    still there with its size and modification time, or it is gone; it can
    be gone only if the directory exists, the scan listed the file, and the
    file was older than the cutoff or another process deleted it.  Whatever
    is not a regular file (a directory, say) is still there.  When the
    directory does not exist the call returns at once, the file system
    untouched and the scan never made. *)
Theorem cleanup_old_files_only_removes_regular_files
    (glob : gmap string OS.Node -> string -> list string) (race : string -> Race)
    (now : Z) (fs : gmap string OS.Node) (directory : string) (hours : Z)
    (pattern : option string) :
  let out := cleanup_old_files glob race now fs directory hours pattern in
  let cutoff_time := now - timedelta_hours hours in
  (∀ p, fs !! p = None → out.1.1 !! p = None) ∧
  (∀ p node, fs !! p = Some node → OS.is_regular node = true →
     out.1.1 !! p = Some node ∨
     (out.1.1 !! p = None ∧
      is_Some (fs !! directory) ∧ p ∈ scanned glob fs directory pattern ∧
      (OS.st_mtime node < cutoff_time ∨ race p ≠ Quiet))) ∧
  (∀ p node, fs !! p = Some node → OS.is_regular node = false →
     ∃ node', out.1.1 !! p = Some node' ∧ OS.is_regular node' = false) ∧
  (fs !! directory = None → out = (fs, [], inr tt)).
Proof.
  intros out cutoff_time.
  assert (Hloses : loses race cutoff_time
                     (if OS.exists_ fs directory then scanned glob fs directory pattern
                      else []) fs out.1.1).
  { subst out. unfold cleanup_old_files. destruct (OS.exists_ fs directory); simpl.
    - apply cleanup_loop_loses.
    - intros q. by left. }
  split; [|split; [|split]].
  - intros p Hnone. destruct (Hloses p) as [Hsame | [Hgone _]]; [|exact Hgone].
    rewrite Hsame. exact Hnone.
  - intros p node Hnode Hreg.
    destruct (Hloses p) as [Hsame | (Hgone & Hp & (n & Hn & _ & Hwhy))].
    + left. rewrite Hsame. exact Hnode.
    + right. split; [exact Hgone|].
      rewrite Hnode in Hn. injection Hn as <-.
      unfold OS.exists_ in Hp.
      destruct (decide (is_Some (fs !! directory))) as [Hdir | Hdir].
      * rewrite bool_decide_eq_true_2 in Hp by exact Hdir. auto.
      * rewrite bool_decide_eq_false_2 in Hp by exact Hdir. by apply elem_of_nil in Hp.
  - intros p node Hnode Hreg. exists node. split; [|exact Hreg].
    destruct (Hloses p) as [Hsame | (_ & _ & (n & Hn & Hregn & _))].
    + rewrite Hsame. exact Hnode.
    + rewrite Hnode in Hn. injection Hn as <-. rewrite Hreg in Hregn. discriminate Hregn.
  - intros Hnone. subst out. unfold cleanup_old_files, OS.exists_.
    rewrite bool_decide_eq_false_2; [reflexivity|].
    rewrite Hnone. by intros [? ?].
Qed.

(** X6.  Running the cleanup a second time at the same clock reading
    removes nothing more, provided the second scan yields no path the
    first one did not and no file vanishes between [isfile] and
    [getmtime]. *)
Theorem cleanup_old_files_idempotent
    (glob : gmap string OS.Node -> string -> list string) (race : string -> Race)
    (now : Z) (fs : gmap string OS.Node) (directory : string) (hours : Z)
    (pattern : option string) :
  let fs1 := (cleanup_old_files glob race now fs directory hours pattern).1.1 in
  (∀ p, p ∈ scan_of glob fs directory pattern → race p ≠ GoneBeforeStat) →
  (∀ p, p ∈ scan_of glob fs1 directory pattern → p ∈ scan_of glob fs directory pattern) →
  (cleanup_old_files glob race now fs1 directory hours pattern).1.1 = fs1 ∧
  (cleanup_old_files glob race now fs1 directory hours pattern).2 = inr tt.
Proof.
  intros fs1 Hrace Hsub.
  destruct (cleanup_old_files_quiet glob race now fs directory hours pattern Hrace)
    as [log Hfirst].
  assert (Hfs1 : fs1 = sweep (now - timedelta_hours hours)
                         (scan_of glob fs directory pattern) fs)
    by (subst fs1; rewrite Hfirst; reflexivity).
  destruct (cleanup_old_files_quiet glob race now fs1 directory hours pattern)
    as [log' Hsecond]; [intros p Hp; apply Hrace, Hsub, Hp|].
  rewrite Hsecond. simpl. split; [|reflexivity].
  apply map_eq. intros q. rewrite sweep_lookup.
  destruct (bool_decide (q ∈ scan_of glob fs1 directory pattern)) eqn:Hq; [|reflexivity].
  apply bool_decide_eq_true in Hq. simpl.
  destruct (stale (now - timedelta_hours hours) fs1 q) eqn:Hstale; [|reflexivity].
  exfalso. unfold stale in Hstale.
  destruct (fs1 !! q) as [n|] eqn:Hn; [|discriminate Hstale].
  rewrite Hfs1, sweep_lookup in Hn.
  rewrite (bool_decide_eq_true_2 _ (Hsub q Hq)) in Hn. simpl in Hn.
  destruct (stale (now - timedelta_hours hours) fs q) eqn:Hold; [discriminate Hn|].
  unfold stale in Hold. rewrite Hn, Hstale in Hold. discriminate Hold.
Qed.

Lemma cleanup_old_files_idempotent_witness :
  let fs1 := (cleanup_old_files SampleDisk.glob SampleDisk.race (10 * SampleDisk.hour)
                SampleDisk.disk "/srv/temp" 1 None).1.1 in
  (cleanup_old_files SampleDisk.glob SampleDisk.race (10 * SampleDisk.hour)
     fs1 "/srv/temp" 1 None).1.1 = fs1 ∧
  (cleanup_old_files SampleDisk.glob SampleDisk.race (10 * SampleDisk.hour)
     fs1 "/srv/temp" 1 None).2 = inr tt.
Proof.
  apply (cleanup_old_files_idempotent SampleDisk.glob SampleDisk.race
           (10 * SampleDisk.hour) SampleDisk.disk "/srv/temp" 1 None).
  - intros p _. unfold SampleDisk.race.
    destruct (String.eqb p "/srv/temp/claimed.wav"); discriminate.
  - intros p Hp. vm_compute in Hp. vm_compute. exact Hp.
Defined.

End CleanupMoreClaims.

Module SampleServer.
Import Tasks.
Local Open Scope string_scope.
Local Open Scope Z_scope.

Definition directory : OS.Node :=
  {| OS.is_regular := false; OS.st_size := 4096; OS.st_mtime := 0 |}.

Definition file_at (mtime : Z) : OS.Node :=
  {| OS.is_regular := true; OS.st_size := 10; OS.st_mtime := mtime |}.

Definition disk : gmap string OS.Node :=
  {[ "/srv/temp" := directory;
     "/srv/temp/render.wav" := file_at (28 * SampleDisk.hour);
     "/srv/temp/fresh.wav" := file_at (30 * SampleDisk.hour - 5);
     "/srv/uploads" := directory;
     "/srv/uploads/part.tmp" := file_at (2 * SampleDisk.hour);
     "/srv/uploads/recent.tmp" := file_at (20 * SampleDisk.hour);
     "/srv/uploads/song.mp3" := file_at (2 * SampleDisk.hour) ]}.

Definition glob (fs : gmap string OS.Node) (pattern : string) : list string :=
  if String.eqb pattern "/srv/temp/*" then ["/srv/temp/fresh.wav"; "/srv/temp/render.wav"]
  else if String.eqb pattern "/srv/uploads/*.tmp" then
    ["/srv/uploads/part.tmp"; "/srv/uploads/recent.tmp"]
  else [].

Definition quiet (path : string) : Race := Quiet.

End SampleServer.

Section TempCleanupClaims.
Import Tasks.
Local Open Scope string_scope.
Local Open Scope Z_scope.
Local Open Scope list_scope.

Lemma stale_same_lookup cutoff_time (fs fs' : gmap string OS.Node) q :
  fs' !! q = fs !! q → stale cutoff_time fs' q = stale cutoff_time fs q.
Proof. intros H. unfold stale. rewrite H. reflexivity. Qed.

Lemma exists_directory (fs : gmap string OS.Node) path node :
  fs !! path = Some node → OS.exists_ fs path = true.
Proof. intros H. unfold OS.exists_. apply bool_decide_eq_true. by eexists. Qed.

(** X7.  The periodic job cleans [<root>/temp] with a threshold of one
    hour and every file, then the upload folder with a threshold of 24
    hours and the pattern [*.tmp].  When both are directories and no file
    vanishes between [isfile] and [getmtime], the job returns normally and
    a path is gone afterwards exactly if the first scan yielded it as a
    regular file older than one hour or the second scan yielded it as a
    regular file older than 24 hours; every other path is as before. *)
Theorem cleanup_temp_files_composes
    (glob : gmap string OS.Node -> string -> list string)
    (race_temp race_uploads : string -> Race)
    (root_path upload_folder : string) (now_temp now_uploads : Z)
    (fs : gmap string OS.Node) (temp_node uploads_node : OS.Node) :
  let temp_dir := OS.join root_path "temp" in
  let temp_files := glob fs (OS.join temp_dir "*") in
  let temp_cutoff := now_temp - timedelta_hours 1 in
  let fs1 := sweep temp_cutoff temp_files fs in
  let upload_files := glob fs1 (OS.join upload_folder "*.tmp") in
  let upload_cutoff := now_uploads - timedelta_hours 24 in
  fs !! temp_dir = Some temp_node → OS.is_regular temp_node = false →
  fs !! upload_folder = Some uploads_node → OS.is_regular uploads_node = false →
  (∀ p, p ∈ temp_files → race_temp p ≠ GoneBeforeStat) →
  (∀ p, p ∈ upload_files → race_uploads p ≠ GoneBeforeStat) →
  let out := TempCleanup.cleanup_temp_files glob race_temp race_uploads
               root_path upload_folder now_temp now_uploads fs in
  out.2 = inr tt ∧
  last out.1.2 = Some "Temporary file cleanup completed" ∧
  ∀ p, out.1.1 !! p
       = if (bool_decide (p ∈ temp_files) && stale temp_cutoff fs p)
            || (bool_decide (p ∈ upload_files) && stale upload_cutoff fs p)
         then None else fs !! p.
Proof.
  intros temp_dir temp_files temp_cutoff fs1 upload_files upload_cutoff
    Htemp Htreg Hup Hureg Hrace1 Hrace2 out.
  assert (Hscan1 : scan_of glob fs temp_dir None = temp_files).
  { unfold scan_of. rewrite (exists_directory fs temp_dir temp_node Htemp). reflexivity. }
  destruct (cleanup_old_files_quiet glob race_temp now_temp fs temp_dir 1 None)
    as [log1 Hfirst]; [rewrite Hscan1; exact Hrace1|].
  rewrite Hscan1 in Hfirst. fold temp_cutoff fs1 in Hfirst.
  assert (Hup1 : fs1 !! upload_folder = Some uploads_node).
  { subst fs1. rewrite sweep_lookup. unfold stale. rewrite Hup, Hureg. simpl.
    rewrite andb_false_r. reflexivity. }
  assert (Hscan2 : scan_of glob fs1 upload_folder (Some "*.tmp") = upload_files).
  { unfold scan_of. rewrite (exists_directory fs1 upload_folder uploads_node Hup1).
    reflexivity. }
  destruct (cleanup_old_files_quiet glob race_uploads now_uploads fs1 upload_folder 24
              (Some "*.tmp")) as [log2 Hsecond]; [rewrite Hscan2; exact Hrace2|].
  rewrite Hscan2 in Hsecond. fold upload_cutoff in Hsecond.
  assert (Hout : out = (sweep upload_cutoff upload_files fs1,
                        log1 ++ log2 ++ ["Temporary file cleanup completed"], inr tt)).
  { subst out. unfold TempCleanup.cleanup_temp_files. fold temp_dir.
    rewrite Hfirst, Hsecond. reflexivity. }
  rewrite Hout. simpl. split; [reflexivity|]. split.
  { rewrite !app_assoc. apply last_snoc. }
  intros p. rewrite sweep_lookup.
  assert (Hfs1 : fs1 !! p = if bool_decide (p ∈ temp_files) && stale temp_cutoff fs p
                            then None else fs !! p)
    by (subst fs1; apply sweep_lookup).
  destruct (bool_decide (p ∈ temp_files) && stale temp_cutoff fs p); simpl.
  - unfold stale at 1. rewrite Hfs1. rewrite andb_false_r. reflexivity.
  - rewrite (stale_same_lookup upload_cutoff fs fs1 p Hfs1), Hfs1. reflexivity.
Qed.

Lemma cleanup_temp_files_composes_witness :
  let out := TempCleanup.cleanup_temp_files SampleServer.glob SampleServer.quiet
               SampleServer.quiet "/srv" "/srv/uploads"
               (30 * SampleDisk.hour) (30 * SampleDisk.hour) SampleServer.disk in
  out.2 = inr tt ∧
  out.1.1 !! "/srv/temp/render.wav" = None ∧
  out.1.1 !! "/srv/uploads/part.tmp" = None ∧
  out.1.1 !! "/srv/uploads/recent.tmp" = SampleServer.disk !! "/srv/uploads/recent.tmp" ∧
  out.1.1 !! "/srv/uploads/song.mp3" = SampleServer.disk !! "/srv/uploads/song.mp3".
Proof.
  destruct (cleanup_temp_files_composes SampleServer.glob SampleServer.quiet
              SampleServer.quiet "/srv" "/srv/uploads"
              (30 * SampleDisk.hour) (30 * SampleDisk.hour) SampleServer.disk
              SampleServer.directory SampleServer.directory
              eq_refl eq_refl eq_refl eq_refl)
    as (Hret & _ & Hfate).
  - intros p _. discriminate.
  - intros p _. discriminate.
  - split; [exact Hret|].
    rewrite !Hfate. repeat split.
Defined.

End TempCleanupClaims.

(** ** Tag normalisation *)

Section TagFacts.
Import MetadataProcessor.
Local Open Scope string_scope.
Local Open Scope list_scope.

(** One step of the mapping loop. *)
Definition apply_mapping (tgs : gmap string TagValue) (acc : gmap string string)
    (m : string * string) : gmap string string :=
  match tgs !! m.1 with
  | Some v =>
      match first_text v with
      | Some s => <[m.2 := s]> acc
      | None => delete m.2 acc
      end
  | None => acc
  end.

(** What the loop leaves under one field: the value of the last mapping
    for that field whose tag is present. *)
Definition field_value (mappings : list (string * string)) (tgs : gmap string TagValue)
    (field : string) (init : option string) : option string :=
  foldl (λ cur m,
           if String.eqb m.2 field then
             match tgs !! m.1 with
             | Some v => first_text v
             | None => cur
             end
           else cur) init mappings.

Lemma apply_mapping_lookup tgs acc m field :
  apply_mapping tgs acc m !! field
  = if String.eqb m.2 field then
      match tgs !! m.1 with
      | Some v => first_text v
      | None => acc !! field
      end
    else acc !! field.
Proof.
  unfold apply_mapping.
  destruct (String.eqb_spec m.2 field) as [-> | Hne].
  - destruct (tgs !! m.1) as [v|]; [|reflexivity].
    destruct (first_text v); [apply lookup_insert_eq | apply lookup_delete_eq].
  - destruct (tgs !! m.1) as [v|]; [|reflexivity].
    destruct (first_text v);
      [by rewrite lookup_insert_ne | by rewrite lookup_delete_ne].
Qed.

Lemma extract_tags_cons m ms tgs fields :
  extract_tags (m :: ms) tgs fields = extract_tags ms tgs (apply_mapping tgs fields m).
Proof. reflexivity. Qed.

Lemma extract_tags_lookup mappings tgs fields field :
  extract_tags mappings tgs fields !! field
  = field_value mappings tgs field (fields !! field).
Proof.
  revert fields. induction mappings as [|m ms IH]; intros fields; [reflexivity|].
  rewrite extract_tags_cons, IH, apply_mapping_lookup. reflexivity.
Qed.

Lemma field_value_unmapped mappings tgs field init :
  field ∉ (snd <$> mappings) → field_value mappings tgs field init = init.
Proof.
  revert init. induction mappings as [|m ms IH]; intros init Hf; [reflexivity|].
  rewrite fmap_cons in Hf. apply not_elem_of_cons in Hf as [Hne Hf].
  unfold field_value in *. simpl.
  destruct (String.eqb_spec m.2 field) as [Heq | _]; [by rewrite Heq in Hne|].
  by apply IH.
Qed.

Lemma extract_tags_agree mappings (tgs tgs' : gmap string TagValue) fields :
  (∀ k, k ∈ (fst <$> mappings) → tgs !! k = tgs' !! k) →
  extract_tags mappings tgs fields = extract_tags mappings tgs' fields.
Proof.
  revert fields. induction mappings as [|m ms IH]; intros fields Hagree; [reflexivity|].
  rewrite !extract_tags_cons. unfold apply_mapping.
  rewrite (Hagree m.1) by (rewrite fmap_cons; apply list_elem_of_here).
  apply IH. intros k Hk. apply Hagree. rewrite fmap_cons. by apply list_elem_of_further.
Qed.

Definition normalised_fields : list string :=
  ["title"; "artist"; "album"; "genre"; "year"; "track_number"; "album_artist";
   "composer"; "lyrics"].

(** X8.  Both tag readers produce only the nine normalised field names,
    and a tag whose key is not in the reader's mapping table has no
    influence: adding, changing or dropping it leaves the extracted fields
    the same. *)
Theorem tag_extraction_is_normalised (tgs : gmap string TagValue) :
  (∀ field value,
     (_extract_id3_tags tgs ∅ !! field = Some value ∨
      _extract_vorbis_tags tgs ∅ !! field = Some value) →
     field ∈ normalised_fields) ∧
  (∀ key v, key ∉ (fst <$> id3_mappings) →
     _extract_id3_tags (<[key := v]> tgs) ∅ = _extract_id3_tags tgs ∅ ∧
     _extract_id3_tags (delete key tgs) ∅ = _extract_id3_tags tgs ∅) ∧
  (∀ key v, key ∉ (fst <$> vorbis_mappings) →
     _extract_vorbis_tags (<[key := v]> tgs) ∅ = _extract_vorbis_tags tgs ∅ ∧
     _extract_vorbis_tags (delete key tgs) ∅ = _extract_vorbis_tags tgs ∅).
Proof.
  split.
  { intros field value Hfield.
    destruct (decide (field ∈ normalised_fields)) as [Hin | Hout]; [exact Hin|].
    exfalso. unfold _extract_id3_tags, _extract_vorbis_tags in Hfield.
    rewrite !extract_tags_lookup in Hfield.
    rewrite !field_value_unmapped in Hfield.
    - rewrite lookup_empty in Hfield. destruct Hfield; discriminate.
    - intros Hin. apply Hout. unfold normalised_fields. simpl in Hin. set_solver.
    - intros Hin. apply Hout. unfold normalised_fields. simpl in Hin. set_solver. }
  split; intros key v Hkey; split; apply extract_tags_agree; intros k Hk;
    assert (key ≠ k) by (intros ->; contradiction);
    by (rewrite lookup_insert_ne || rewrite lookup_delete_ne).
Qed.

(** X9.  Where two tags feed one field the later mapping wins whenever its
    tag is present, even with an empty value: the ID3 year is TDRC's first
    text if there is a TDRC frame (none if that frame has no text), and
    TYER's otherwise; the Vorbis year is taken from [year] before [date].
    A field with a single source, such as the title, is the first text of
    that tag, or absent. *)
Theorem tag_extraction_precedence (tgs : gmap string TagValue) :
  _extract_id3_tags tgs ∅ !! "year"
    = match tgs !! "TDRC" with
      | Some v => first_text v
      | None => tgs !! "TYER" ≫= first_text
      end ∧
  _extract_vorbis_tags tgs ∅ !! "year"
    = match tgs !! "year" with
      | Some v => first_text v
      | None => tgs !! "date" ≫= first_text
      end ∧
  _extract_id3_tags tgs ∅ !! "title" = tgs !! "TIT2" ≫= first_text ∧
  _extract_vorbis_tags tgs ∅ !! "title" = tgs !! "title" ≫= first_text.
Proof.
  unfold _extract_id3_tags, _extract_vorbis_tags.
  rewrite !extract_tags_lookup, lookup_empty.
  unfold field_value, id3_mappings, vorbis_mappings. simpl.
  repeat split.
Qed.

End TagFacts.

(** ** The duration rule, end to end; the errors of [process_artwork] *)

Section DurationRule.
Import MetadataProcessor.
Local Open Scope string_scope.
Local Open Scope Z_scope.
Local Open Scope list_scope.

(** Truncation loses the fraction only: a length is under a whole bound
    exactly if its integer part is. *)
Lemma int_of_lt_iff (x : Q) (k : Z) :
  0 < k → (int_of x < k ↔ Qlt x (Qmake k 1)).
Proof.
  intros Hk. unfold int_of, Qlt. simpl.
  destruct x as [n d]. simpl.
  pose proof (Z.quot_rem' n (Z.pos d)) as Hqr.
  pose proof (Pos2Z.is_pos d) as Hd.
  destruct (Z.le_gt_cases 0 n) as [Hn | Hn].
  - pose proof (Z.rem_bound_pos_pos n (Z.pos d) Hd Hn) as Hr. split; intros H; nia.
  - pose proof (Z.rem_bound_pos_neg n (Z.pos d) Hd ltac:(lia)) as Hr. split; intros H; nia.
Qed.

(** X10.  For a supported file that mutagen can read, the validator's
    verdict is the duration rule on the stream's real length: the file is
    valid exactly when it lasts at least 30 seconds, a 29.9 second stream
    being too short; the sample-rate, bitrate and size warnings never
    change the verdict, and the only possible error is the duration
    one. *)
Theorem validate_audio_file_verdict
    (load : AudioFormat -> string -> Py.result Audio) (fs : gmap string OS.Node)
    (file_path : string) (node : OS.Node) (fmt : AudioFormat) (audio : Audio) :
  fs !! file_path = Some node →
  SUPPORTED_FORMATS !! file_ext file_path = Some fmt →
  load fmt file_path = inr audio →
  ∃ v,
    validate_audio_file load fs file_path = inr v ∧
    (is_valid v = true ↔ Qle (Qmake 30 1) (info_length (info audio))) ∧
    (is_valid v = true → errors v = []) ∧
    (is_valid v = false → errors v = ["Audio file must be at least 30 seconds long"]).
Proof.
  intros Hnode Hfmt Hload.
  assert (Hm : ∃ m, extract_metadata load fs file_path = inr m ∧
                    duration m = int_of (info_length (info audio))).
  { unfold extract_metadata, OS.exists_.
    rewrite bool_decide_eq_true_2 by (by eexists). simpl.
    rewrite Hfmt. simpl. rewrite Hload. simpl. eexists. split; reflexivity. }
  destruct Hm as (m & Hm & Hdur).
  assert (Hsize : OS.getsize fs file_path = inr (OS.st_size node))
    by (unfold OS.getsize; rewrite Hnode; reflexivity).
  rewrite (validate_audio_file_rules load fs file_path m _ Hm Hsize).
  eexists. split; [reflexivity|]. simpl. rewrite Hdur.
  pose proof (int_of_lt_iff (info_length (info audio)) 30 ltac:(lia)) as Hlt.
  destruct (Z.ltb_spec (int_of (info_length (info audio))) 30) as [Hshort | Hlong]; simpl.
  - split; [|split; [discriminate | reflexivity]].
    split; [discriminate|]. intros Hle. exfalso.
    apply Hlt in Hshort. exact (Qle_not_lt _ _ Hle Hshort).
  - split; [|split; [reflexivity | discriminate]].
    split; [|reflexivity]. intros _.
    apply Qnot_lt_le. intros Hq. apply Hlt in Hq. lia.
Qed.

Lemma validate_audio_file_verdict_witness :
  ∃ v,
    validate_audio_file SampleFiles.load SampleFiles.disk "/uploads/short.mp3" = inr v ∧
    is_valid v = false ∧
    errors v = ["Audio file must be at least 30 seconds long"].
Proof.
  destruct (validate_audio_file_verdict SampleFiles.load SampleFiles.disk
              "/uploads/short.mp3" (SampleFiles.file 1000000) MP3
              (SampleFiles.stream 29 (Some 160000)) eq_refl eq_refl eq_refl)
    as (v & Hv & Hiff & _ & Herr).
  exists v. split; [exact Hv|].
  assert (Hinvalid : is_valid v = false).
  { destruct (is_valid v); [|reflexivity].
    exfalso. pose proof (proj1 Hiff eq_refl) as Hle.
    vm_compute in Hle. apply Hle. reflexivity. }
  split; [exact Hinvalid | exact (Herr Hinvalid)].
Defined.

End DurationRule.

Section ArtworkErrors.
Import MetadataProcessor.
Local Open Scope string_scope.

Variable Image : Type.
Variable image_size : Image -> Z * Z.
Variable image_mode : Image -> string.
Variable Image_open : string -> Py.result Image.
Variable thumbnail : Image -> Z * Z -> Image.
Variable convert : Image -> string -> Image.
Variable save : Image -> string -> Z -> Py.result string.


End ArtworkErrors.

(** ** The endpoint: ownership, the transition, the whole workflow *)

Section RouteMoreClaims.
Import Models.
Local Open Scope string_scope.
Local Open Scope list_scope.

(** X12.  A release id that does not exist and a release that belongs to
    another user get the same answer, 404 "Release not found", and nothing
    is changed: the endpoint does not tell the two cases apart and never
    starts a distribution for someone else's release, whatever its
    status. *)
Theorem distribute_hides_foreign_releases
    (session_commit : DB -> Py.result DB)
    (current_user_id release_id : Z) (d : DB) :
  (releases d !! release_id = None ∨
   ∃ release, releases d !! release_id = Some release ∧ user_id release ≠ current_user_id) →
  Routes.distribute_release session_commit current_user_id release_id d
  = (d, Routes.error_response 404 "Release not found").
Proof.
  intros [Hnone | (release & Hfound & Howner)]; unfold Routes.distribute_release.
  - rewrite Hnone. reflexivity.
  - rewrite Hfound.
    destruct (Z.eqb_spec (user_id release) current_user_id) as [Heq | _];
      [contradiction | reflexivity].
Qed.

Lemma distribute_hides_foreign_releases_witness :
  Routes.distribute_release Py.ret 2 7 (Sample.database "draft" [Sample.spotify])
  = (Sample.database "draft" [Sample.spotify],
     Routes.error_response 404 "Release not found").
Proof.
  apply (distribute_hides_foreign_releases Py.ret 2 7
           (Sample.database "draft" [Sample.spotify])).
  right. exists (Sample.release "draft"). split; [reflexivity | discriminate].
Defined.

(** X13.  For the user's own release in status [draft]: when the commit
    goes through, the answer is 200 and the stored release has status
    [processing] and is otherwise the same, all other releases, the
    platforms and the log table being untouched; when the commit raises,
    the change is rolled back and the answer is 500 "Failed to start
    distribution". *)
Theorem distribute_starts_processing
    (session_commit : DB -> Py.result DB)
    (current_user_id release_id : Z) (d : DB) (release : Release) :
  releases d !! release_id = Some release →
  user_id release = current_user_id →
  status release = "draft" →
  let pending := save_release release_id (set_status release "processing") d in
  let out := Routes.distribute_release session_commit current_user_id release_id d in
  (session_commit pending = inr pending →
     Routes.status_code out.2 = 200%Z ∧
     releases out.1 !! release_id = Some (set_status release "processing") ∧
     (∀ other, other ≠ release_id → releases out.1 !! other = releases d !! other) ∧
     platforms out.1 = platforms d ∧
     distribution_logs out.1 = distribution_logs d) ∧
  (∀ e, session_commit pending = inl e →
     out = (d, Routes.error_response 500 "Failed to start distribution")).
Proof.
  intros Hfound Howner Hdraft pending out. subst out.
  unfold Routes.distribute_release. rewrite Hfound.
  rewrite (proj2 (Z.eqb_eq _ _) Howner), Hdraft. simpl. fold pending.
  split.
  - intros Hcommit. rewrite Hcommit. simpl.
    split; [reflexivity|]. split; [apply lookup_insert_eq|].
    split; [intros other Hne; by rewrite lookup_insert_ne|]. done.
  - intros e Hcommit. rewrite Hcommit. reflexivity.
Qed.

Lemma distribute_starts_processing_witness :
  let out := Routes.distribute_release Py.ret 1 7 (Sample.database "draft" [Sample.spotify]) in
  Routes.status_code out.2 = 200%Z ∧
  (status <$> releases out.1 !! 7%Z) = Some "processing".
Proof.
  destruct (distribute_starts_processing Py.ret 1 7
              (Sample.database "draft" [Sample.spotify]) (Sample.release "draft")
              eq_refl eq_refl eq_refl) as [Hok _].
  destruct (Hok eq_refl) as (Hcode & Hrel & _).
  split; [exact Hcode|]. rewrite Hrel. reflexivity.
Defined.

(** X14.  The life of a release through the endpoint and the worker: from
    [draft] the endpoint moves it to [processing]; the worker then moves it
    to [distributed], whatever the platforms answer; and from then on the
    endpoint refuses to start a distribution again (400) and leaves the
    release as it is. *)
Theorem release_lifecycle
    (submit : Release -> Platform -> Py.result (gmap string string))
    (current_user_id release_id : Z) (d : DB) (release : Release) :
  releases d !! release_id = Some release →
  user_id release = current_user_id →
  status release = "draft" →
  let d1 := (Routes.distribute_release Py.ret current_user_id release_id d).1 in
  let w2 := (Tasks.distribute_release_with submit release_id
               {| Tasks.db := d1; Tasks.task_states := []; Tasks.logged := [];
                  Tasks.notifications := [] |}).1 in
  (status <$> releases d1 !! release_id) = Some "processing" ∧
  (status <$> releases (Tasks.db w2) !! release_id) = Some "distributed" ∧
  Routes.distribute_release Py.ret current_user_id release_id (Tasks.db w2)
  = (Tasks.db w2, Routes.error_response 400 "Release is not ready for distribution").
Proof.
  intros Hfound Howner Hdraft d1 w2.
  assert (Hd1 : d1 = save_release release_id (set_status release "processing") d).
  { subst d1. unfold Routes.distribute_release. rewrite Hfound.
    rewrite (proj2 (Z.eqb_eq _ _) Howner), Hdraft. reflexivity. }
  assert (Hrel1 : releases d1 !! release_id = Some (set_status release "processing"))
    by (rewrite Hd1; apply lookup_insert_eq).
  split; [rewrite Hrel1; reflexivity|].
  destruct (distribute_release_found submit release_id
              {| Tasks.db := d1; Tasks.task_states := []; Tasks.logged := [];
                 Tasks.notifications := [] |}
              (set_status release "processing") Hrel1) as (_ & Hrel2 & _).
  fold w2 in Hrel2.
  assert (Hlook : releases (Tasks.db w2) !! release_id
            = Some (distributed submit (set_status release "processing")
                      {| Tasks.db := d1; Tasks.task_states := []; Tasks.logged := [];
                         Tasks.notifications := [] |}))
    by (rewrite Hrel2; apply lookup_insert_eq).
  split; [rewrite Hlook; reflexivity|].
  unfold Routes.distribute_release. rewrite Hlook. simpl.
  rewrite (proj2 (Z.eqb_eq _ _) Howner). reflexivity.
Qed.

Lemma release_lifecycle_witness :
  let d1 := (Routes.distribute_release Py.ret 1 7
               (Sample.database "draft" [Sample.spotify; Sample.tidal])).1 in
  let w2 := (Tasks.distribute_release_with Sample.flaky_submit 7
               {| Tasks.db := d1; Tasks.task_states := []; Tasks.logged := [];
                  Tasks.notifications := [] |}).1 in
  (status <$> releases d1 !! 7%Z) = Some "processing" ∧
  (status <$> releases (Tasks.db w2) !! 7%Z) = Some "distributed" ∧
  Routes.distribute_release Py.ret 1 7 (Tasks.db w2)
  = (Tasks.db w2, Routes.error_response 400 "Release is not ready for distribution").
Proof.
  apply (release_lifecycle Sample.flaky_submit 1 7
           (Sample.database "draft" [Sample.spotify; Sample.tidal])
           (Sample.release "draft") eq_refl eq_refl eq_refl).
Defined.

End RouteMoreClaims.

(** ** The waveform *)

Section WaveformClaims.
Import Waveform.
Import Lqa.
Local Open Scope Q_scope.

Lemma amplitude_bounds (uniform : nat -> Q) (i : nat) :
  0 <= amplitude uniform i /\ amplitude uniform i <= 1.
Proof.
  unfold amplitude, py_max, py_min.
  destruct (Qle_bool 1 ((1 # 2) + uniform i)) eqn:Hmin.
  - simpl. split; lra.
  - destruct (Qle_bool ((1 # 2) + uniform i) 0) eqn:Hmax.
    + split; lra.
    + assert (Hlo : ~ (1 # 2) + uniform i <= 0)
        by (intros H; apply Qle_bool_iff in H; rewrite H in Hmax; discriminate).
      assert (Hhi : ~ 1 <= (1 # 2) + uniform i)
        by (intros H; apply Qle_bool_iff in H; rewrite H in Hmin; discriminate).
      split; lra.
Qed.

(** X15.  Whatever the random draws, [generate_waveform_data] returns
    exactly [samples] amplitudes (none for a negative count), each between
    0 and 1; and when a draw is within the [-0.3, 0.3] that [random.uniform]
    is asked for, the clamp is idle and the amplitude is 0.5 plus the
    draw. *)
Theorem generate_waveform_data_bounds
    (uniform : nat -> Q) (file_path : string) (samples : Z) :
  length (generate_waveform_data uniform file_path samples) = Z.to_nat samples /\
  Forall (fun a => 0 <= a /\ a <= 1) (generate_waveform_data uniform file_path samples) /\
  (forall i, - (3 # 10) <= uniform i -> uniform i <= 3 # 10 ->
     amplitude uniform i = (1 # 2) + uniform i).
Proof.
  unfold generate_waveform_data. split; [|split].
  - rewrite length_map, length_seq. reflexivity.
  - apply Forall_forall. intros a Ha. apply list_elem_of_In, in_map_iff in Ha as (i & <- & _).
    apply amplitude_bounds.
  - intros i Hlo Hhi. unfold amplitude, py_max, py_min.
    destruct (Qle_bool 1 ((1 # 2) + uniform i)) eqn:Hmin.
    + apply Qle_bool_iff in Hmin. lra.
    + destruct (Qle_bool ((1 # 2) + uniform i) 0) eqn:Hmax; [|reflexivity].
      apply Qle_bool_iff in Hmax. lra.
Qed.

End WaveformClaims.

(** ** Processing an uploaded audio file *)

Section AudioTaskClaims.
Import MetadataProcessor Tables AudioTask.
Local Open Scope string_scope.
Local Open Scope Z_scope.
Local Open Scope list_scope.

Variable load : AudioFormat -> string -> Py.result Audio.
Variable fs : gmap string OS.Node.
Variable str_list : list string -> string.

Lemma validate_after_extract path m :
  extract_metadata load fs path = inr m →
  ∃ v, validate_audio_file load fs path = inr v ∧
       is_valid v = negb (duration m <? 30) ∧
       errors v = if duration m <? 30
                  then ["Audio file must be at least 30 seconds long"] else [].
Proof.
  intros Hm. destruct (getsize_after_extract load fs path m Hm) as [file_size Hsize].
  rewrite (validate_audio_file_rules load fs path m file_size Hm Hsize).
  eexists. split; [reflexivity|]. split; reflexivity.
Qed.

Lemma commit_file_absent key m (w : World) :
  get_file key (files w) = None → files (commit_file key m w) = files w.
Proof.
  unfold get_file, commit_file. simpl. intros Hnone.
  induction (files w) as [|row rows IH]; [reflexivity|].
  simpl in *. destruct (file_id row =? key); [discriminate Hnone|].
  by rewrite IH.
Qed.

(** X16.  [process_audio_file] fails without touching the file table: when
    the extraction raises, that exception is raised again; when the stream
    is shorter than 30 seconds, a [ValueError] "File validation failed:
    ..." with the printed error list is raised.  In both cases the failure
    is logged and the task reports PROGRESS and then FAILURE with the
    exception's text. *)
Theorem process_audio_file_failures (key : Z) (path : string) (w : World) :
  let out := process_audio_file load fs str_list key path w in
  (∀ e, extract_metadata load fs path = inl e →
     out.2 = inl e ∧ files out.1 = files w ∧
     task_states out.1
       = task_states w ++ [("PROGRESS", "Extracting metadata...");
                           ("FAILURE", Py.str_exn e)] ∧
     logged out.1
       = logged w ++ ["File processing failed for " +:+ path +:+ ": " +:+ Py.str_exn e]) ∧
  (∀ m, extract_metadata load fs path = inr m → duration m < 30 →
     let msg := "File validation failed: "
                  +:+ str_list ["Audio file must be at least 30 seconds long"] in
     out.2 = inl (Py.Raise Py.ValueError msg) ∧ files out.1 = files w ∧
     task_states out.1
       = task_states w ++ [("PROGRESS", "Extracting metadata..."); ("FAILURE", msg)] ∧
     logged out.1 = logged w ++ ["File processing failed for " +:+ path +:+ ": " +:+ msg]).
Proof.
  intros out. subst out. unfold process_audio_file, process_audio_file_body. split.
  - intros e He. rewrite He. simpl. rewrite <- app_assoc. done.
  - intros m Hm Hshort. cbv zeta. rewrite Hm.
    destruct (validate_after_extract path m Hm) as (v & Hv & Hvalid & Herrors).
    rewrite Hv, Hvalid, Herrors.
    destruct (Z.ltb_spec (duration m) 30) as [_ | Hlong]; [|lia].
    simpl. rewrite <- app_assoc. done.
Qed.

(** X17.  When the extraction succeeds and the stream lasts at least 30
    seconds, the task ends normally, whatever warnings the validator gave.
    The row with the given id gets the extracted duration, bitrate and
    sample rate; its [processing_status], its channel count and its path
    stay as they were (the task assigns [status], not the column), and
    every other row is untouched.  Without such a row the table is
    unchanged and the task still reports SUCCESS. *)
Theorem process_audio_file_stores_metadata
    (key : Z) (path : string) (w : World) (m : Metadata) :
  extract_metadata load fs path = inr m →
  30 ≤ duration m →
  let out := process_audio_file load fs str_list key path w in
  out.2 = inr tt ∧
  files out.1
    = map (λ row, if file_id row =? key then store_metadata m row else row) (files w) ∧
  (∀ row, file_duration (store_metadata m row) = Some (duration m) ∧
          file_bitrate (store_metadata m row) = bitrate m ∧
          file_sample_rate (store_metadata m row) = Some (sample_rate m) ∧
          processing_status (store_metadata m row) = processing_status row ∧
          file_channels (store_metadata m row) = file_channels row ∧
          file_path (store_metadata m row) = file_path row) ∧
  (get_file key (files w) = None → files out.1 = files w) ∧
  task_states out.1
    = task_states w ++ [("PROGRESS", "Extracting metadata...");
                        ("SUCCESS", "File processed successfully")].
Proof.
  intros Hm Hlong out. subst out. unfold process_audio_file, process_audio_file_body.
  rewrite Hm.
  destruct (validate_after_extract path m Hm) as (v & Hv & Hvalid & _).
  rewrite Hv, Hvalid.
  destruct (Z.ltb_spec (duration m) 30) as [Hshort | _]; [lia|]. simpl.
  destruct (get_file key (files w)) as [row|] eqn:Hrow; simpl.
  - split; [reflexivity|]. split; [reflexivity|]. split; [done|].
    split; [discriminate|]. by rewrite <- app_assoc.
  - pose proof (commit_file_absent key m w Hrow) as Hsame. simpl in Hsame.
    split; [reflexivity|]. split; [by rewrite Hsame|]. split; [done|].
    split; [reflexivity|]. by rewrite <- app_assoc.
Qed.

End AudioTaskClaims.

Section AudioTaskExamples.
Import MetadataProcessor Tables AudioTask.
Local Open Scope string_scope.
Local Open Scope Z_scope.
Local Open Scope list_scope.

Definition sample_row (key : Z) (path : string) : FileRow :=
  {| file_id := key; file_release_id := 7; file_path := path;
     file_duration := None; file_bitrate := None; file_sample_rate := None;
     file_channels := None; processing_status := "pending" |}.

Definition sample_files : World :=
  {| files := [sample_row 4 "/uploads/short.mp3"; sample_row 5 "/uploads/song.ogg"];
     task_states := []; logged := [] |}.

Lemma process_audio_file_stores_metadata_witness :
  let out := process_audio_file SampleFiles.load SampleFiles.disk (λ _, "[...]")
               5 "/uploads/song.ogg" sample_files in
  out.2 = inr tt ∧
  files out.1
    = [sample_row 4 "/uploads/short.mp3";
       {| file_id := 5; file_release_id := 7; file_path := "/uploads/song.ogg";
          file_duration := Some 200; file_bitrate := Some 0;
          file_sample_rate := Some 44100; file_channels := None;
          processing_status := "pending" |}].
Proof.
  destruct (process_audio_file_stores_metadata SampleFiles.load SampleFiles.disk
              (λ _, "[...]") 5 "/uploads/song.ogg" sample_files
              {| duration := 200; bitrate := Some 0; sample_rate := 44100;
                 channels := 2; tag_fields := ∅; artwork := None |}
              eq_refl ltac:(simpl; lia))
    as (Hret & Hfiles & _).
  split; [exact Hret|]. rewrite Hfiles. reflexivity.
Defined.

End AudioTaskExamples.

(** ** The profile endpoint *)

Section ProfileFacts.
Import Tables Profile.
Local Open Scope string_scope.
Local Open Scope Z_scope.
Local Open Scope list_scope.

Lemma NoDup_fmap_eq {A B : Type} (f : A → B) (l : list A) (x y : A) :
  NoDup (f <$> l) → x ∈ l → y ∈ l → f x = f y → x = y.
Proof.
  induction l as [|a l IH]; intros Hnd Hx Hy Hf; [by apply elem_of_nil in Hx|].
  rewrite fmap_cons in Hnd. apply NoDup_cons in Hnd as [Ha Hnd].
  apply elem_of_cons in Hx as [-> | Hx]; apply elem_of_cons in Hy as [-> | Hy].
  - reflexivity.
  - exfalso. apply Ha. rewrite Hf. by apply list_elem_of_fmap_2.
  - exfalso. apply Ha. rewrite <- Hf. by apply list_elem_of_fmap_2.
  - by apply IH.
Qed.

Lemma get_user_spec key rows user :
  get_user key rows = Some user → user ∈ rows ∧ uid user = key.
Proof.
  unfold get_user. intros H. apply find_some in H as [Hin Heq].
  split; [by apply list_elem_of_In | by apply Z.eqb_eq].
Qed.

Lemma first_by_email_spec e rows existing :
  first_by_email e rows = Some existing → existing ∈ rows ∧ email existing = e.
Proof.
  unfold first_by_email. intros H. apply find_some in H as [Hin Heq].
  split; [by apply list_elem_of_In | by apply String.eqb_eq].
Qed.

Lemma first_by_email_none e rows u :
  first_by_email e rows = None → u ∈ rows → email u ≠ e.
Proof.
  unfold first_by_email. intros H Hu Heq.
  apply list_elem_of_In in Hu.
  pose proof (find_none _ _ H u Hu) as Hne. simpl in Hne.
  apply String.eqb_neq in Hne. contradiction.
Qed.

Lemma write_user_cons user u us :
  write_user user (u :: us)
  = (if uid u =? uid user then user else u) :: write_user user us.
Proof. reflexivity. Qed.

Lemma write_user_absent user rows :
  uid user ∉ (uid <$> rows) → write_user user rows = rows.
Proof.
  induction rows as [|u us IH]; intros Habs; [reflexivity|].
  rewrite fmap_cons in Habs. apply not_elem_of_cons in Habs as [Hne Habs].
  rewrite write_user_cons, (IH Habs).
  destruct (Z.eqb_spec (uid u) (uid user)) as [Heq | _]; [by rewrite Heq in Hne|].
  reflexivity.
Qed.

Lemma write_user_elem user rows x :
  x ∈ write_user user rows → x = user ∨ x ∈ rows.
Proof.
  induction rows as [|u us IH]; intros Hx; [by apply elem_of_nil in Hx|].
  rewrite write_user_cons in Hx.
  apply elem_of_cons in Hx as [-> | Hx].
  - destruct (uid u =? uid user); [by left | right; apply list_elem_of_here].
  - destruct (IH Hx) as [-> | Hin]; [by left | right; by apply list_elem_of_further].
Qed.

(** Writing a row back changes no column on which the new row agrees with
    the stored one. *)
Lemma write_user_column {B : Type} (f : User → B) user rows :
  (∀ u, u ∈ rows → uid u = uid user → f u = f user) →
  f <$> write_user user rows = f <$> rows.
Proof.
  induction rows as [|u us IH]; intros Hsame; [reflexivity|].
  rewrite write_user_cons, !fmap_cons.
  rewrite IH by (intros v Hv; apply Hsame; by apply list_elem_of_further).
  destruct (Z.eqb_spec (uid u) (uid user)) as [Heq | _]; [|reflexivity].
  by rewrite (Hsame u (list_elem_of_here _ _) Heq).
Qed.

Lemma write_user_emails user rows :
  NoDup (uid <$> rows) → NoDup (email <$> rows) →
  (∀ u, u ∈ rows → email u = email user → uid u = uid user) →
  NoDup (email <$> write_user user rows).
Proof.
  induction rows as [|u us IH]; intros Hids Hemails Hfree; [constructor|].
  rewrite fmap_cons in Hids. rewrite fmap_cons in Hemails.
  apply NoDup_cons in Hids as [Hid Hids]. apply NoDup_cons in Hemails as [Hmail Hemails].
  rewrite write_user_cons, fmap_cons. apply NoDup_cons.
  destruct (Z.eqb_spec (uid u) (uid user)) as [Heq | Hne].
  - rewrite write_user_absent by (by rewrite <- Heq). split; [|exact Hemails].
    intros Hin. apply list_elem_of_fmap in Hin as (v & Hv & Hvin).
    apply Hid. rewrite Heq, <- (Hfree v); [by apply list_elem_of_fmap_2|
      by apply list_elem_of_further | by symmetry].
  - split.
    + intros Hin. apply list_elem_of_fmap in Hin as (x & Hx & Hxin).
      destruct (write_user_elem user us x Hxin) as [-> | Hold].
      * apply Hne, Hfree; [apply list_elem_of_here | exact Hx].
      * apply Hmail. rewrite Hx. by apply list_elem_of_fmap_2.
    + apply IH; [exact Hids | exact Hemails|].
      intros v Hv. apply Hfree. by apply list_elem_of_further.
Qed.

End ProfileFacts.

Module SampleUsers.
Import Tables.
Local Open Scope string_scope.
Local Open Scope Z_scope.

Definition alice : User :=
  {| uid := 1; email := "alice@example.org"; uname := "Alice";
     password_hash := "$2b$12$aaaa"; is_admin := false |}.

Definition bob : User :=
  {| uid := 2; email := "bob@example.org"; uname := "Bob";
     password_hash := "$2b$12$bbbb"; is_admin := true |}.

Definition table : list User := [alice; bob].

End SampleUsers.

Section ProfileClaims.
Import Tables Profile.
Local Open Scope string_scope.
Local Open Scope Z_scope.
Local Open Scope list_scope.

(** X18.  [update_profile] keeps the user table sound: if ids and e-mail
    addresses are unique before a request they are unique after it,
    whatever the request holds and whether it is accepted, refused or
    fails.  The request changes no id, no password hash and no admin flag,
    neither of the caller nor of anyone else.  (The commit either stores
    what it is given or raises.) *)
Theorem update_profile_keeps_table_sound
    (session_commit : list User -> Py.result (list User))
    (current_user_id : Z) (data : gmap string string) (rows : list User) :
  NoDup (uid <$> rows) →
  NoDup (email <$> rows) →
  (∀ pending saved, session_commit pending = inr saved → saved = pending) →
  let out := update_profile session_commit current_user_id data rows in
  NoDup (email <$> out.1) ∧
  uid <$> out.1 = uid <$> rows ∧
  is_admin <$> out.1 = is_admin <$> rows ∧
  password_hash <$> out.1 = password_hash <$> rows.
Proof.
  intros Hids Hemails Hcommit out. subst out. unfold update_profile.
  destruct (get_user current_user_id rows) as [user0|] eqn:Hget; [|done].
  destruct (get_user_spec _ _ _ Hget) as [Hin0 Huid0].
  set (user1 := match data !! "name" with Some n => set_name n user0 | None => user0 end).
  assert (Huser1 : uid user1 = uid user0 ∧ email user1 = email user0 ∧
                   is_admin user1 = is_admin user0 ∧
                   password_hash user1 = password_hash user0)
    by (subst user1; destruct (data !! "name"); done).
  destruct Huser1 as (Huid1 & Hmail1 & Hadm1 & Hpw1).
  set (taken := match data !! "email" with
                | Some e => match first_by_email e rows with
                            | Some existing => negb (uid existing =? uid user1)
                            | None => false
                            end
                | None => false
                end).
  destruct taken eqn:Htaken; [done|].
  set (user2 := match data !! "email" with Some e => set_email e user1 | None => user1 end).
  assert (Huser2 : uid user2 = uid user0 ∧ is_admin user2 = is_admin user0 ∧
                   password_hash user2 = password_hash user0)
    by (subst user2; destruct (data !! "email"); done).
  destruct Huser2 as (Huid2 & Hadm2 & Hpw2).
  destruct (session_commit (write_user user2 rows)) as [e | saved] eqn:Hsaved; [done|].
  apply Hcommit in Hsaved as ->. simpl.
  assert (Hsame : ∀ u, u ∈ rows → uid u = uid user2 → u = user0).
  { intros u Hu Heq. apply (NoDup_fmap_eq uid rows); [done | done | done | congruence]. }
  split; [|split; [|split]].
  - apply write_user_emails; [exact Hids | exact Hemails|].
    intros u Hu Hmail. subst user2 taken.
    destruct (data !! "email") as [e|]; simpl in *.
    + destruct (first_by_email e rows) as [existing|] eqn:Hfirst.
      * destruct (first_by_email_spec _ _ _ Hfirst) as [Hex Hexmail].
        assert (u = existing)
          by (apply (NoDup_fmap_eq email rows); [done | done | done | congruence]).
        subst u. apply negb_false_iff, Z.eqb_eq in Htaken. congruence.
      * exfalso. by apply (first_by_email_none e rows u Hfirst Hu).
    + assert (u = user0)
        by (apply (NoDup_fmap_eq email rows); [done | done | done | congruence]).
      subst u. congruence.
  - apply write_user_column. intros u _ Heq. exact Heq.
  - apply write_user_column. intros u Hu Heq. rewrite (Hsame u Hu Heq). congruence.
  - apply write_user_column. intros u Hu Heq. rewrite (Hsame u Hu Heq). congruence.
Qed.

Lemma update_profile_keeps_table_sound_witness :
  let out := update_profile Py.ret 1
               {[ "name" := "Al"; "email" := "al@example.org" ]} SampleUsers.table in
  NoDup (email <$> out.1) ∧
  uid <$> out.1 = [1; 2] ∧
  is_admin <$> out.1 = [false; true] ∧
  email <$> out.1 = ["al@example.org"; "bob@example.org"].
Proof.
  destruct (update_profile_keeps_table_sound Py.ret 1
              {[ "name" := "Al"; "email" := "al@example.org" ]} SampleUsers.table)
    as (Hnd & Hids & Hadm & _).
  - simpl. repeat constructor; set_solver.
  - simpl. repeat constructor; set_solver.
  - intros pending saved H. inversion H. reflexivity.
  - split; [exact Hnd|]. split; [exact Hids|]. split; [exact Hadm|]. reflexivity.
Defined.

(** X19.  An e-mail address that another user holds is refused with 400
    "Email already in use" and nothing is stored, not even a name sent in
    the same request; the caller's own current address is not refused. *)
Theorem update_profile_refuses_taken_email
    (session_commit : list User -> Py.result (list User))
    (current_user_id : Z) (data : gmap string string) (rows : list User)
    (user other : User) (e : string) :
  NoDup (email <$> rows) →
  get_user current_user_id rows = Some user →
  data !! "email" = Some e →
  other ∈ rows → email other = e →
  (uid other ≠ current_user_id →
     update_profile session_commit current_user_id data rows
     = (rows, Refused 400 "Email already in use")) ∧
  (other = user →
     ∀ code, (update_profile session_commit current_user_id data rows).2
             ≠ Refused code "Email already in use").
Proof.
  intros Hemails Hget Hdata Hother Hmail.
  destruct (get_user_spec _ _ _ Hget) as [Hin Huid].
  assert (Hfirst : first_by_email e rows = Some other).
  { destruct (first_by_email e rows) as [existing|] eqn:Hfirst.
    - destruct (first_by_email_spec _ _ _ Hfirst) as [Hex Hexmail].
      f_equal. apply (NoDup_fmap_eq email rows); [done | done | done | congruence].
    - exfalso. by apply (first_by_email_none e rows other Hfirst Hother). }
  unfold update_profile. rewrite Hget, Hdata, Hfirst.
  assert (Hname : uid (match data !! "name" with
                       | Some n => set_name n user
                       | None => user
                       end) = current_user_id)
    by (destruct (data !! "name"); exact Huid).
  rewrite Hname. split.
  - intros Hne. destruct (Z.eqb_spec (uid other) current_user_id); [contradiction|].
    reflexivity.
  - intros -> code. rewrite Huid, Z.eqb_refl. simpl.
    destruct (session_commit _); simpl; discriminate.
Qed.

Lemma update_profile_refuses_taken_email_witness :
  update_profile Py.ret 1 {[ "name" := "Al"; "email" := "bob@example.org" ]}
    SampleUsers.table
  = (SampleUsers.table, Refused 400 "Email already in use").
Proof.
  destruct (update_profile_refuses_taken_email Py.ret 1
              {[ "name" := "Al"; "email" := "bob@example.org" ]} SampleUsers.table
              SampleUsers.alice SampleUsers.bob "bob@example.org") as [Hrefused _].
  - simpl. repeat constructor; set_solver.
  - reflexivity.
  - reflexivity.
  - unfold SampleUsers.table. set_solver.
  - reflexivity.
  - apply Hrefused. discriminate.
Defined.

End ProfileClaims.

(** ** Deleting a release *)

Section DeletionFacts.
Import Models Tables Deletion.
Local Open Scope string_scope.
Local Open Scope Z_scope.
Local Open Scope list_scope.

(** The file system with the given paths unlinked. *)
Definition unlinked (paths : list string) (fs : gmap string OS.Node) : gmap string OS.Node :=
  foldl (λ fs path, delete path fs) fs paths.

Lemma unlinked_lookup paths (fs : gmap string OS.Node) q :
  unlinked paths fs !! q = if bool_decide (q ∈ paths) then None else fs !! q.
Proof.
  revert fs. induction paths as [|p rest IH]; intros fs; [reflexivity|].
  unfold unlinked in *. simpl. rewrite IH.
  destruct (decide (q = p)) as [-> | Hne].
  - rewrite lookup_delete_eq.
    rewrite (bool_decide_eq_true_2 (p ∈ p :: rest)) by apply list_elem_of_here.
    by destruct (bool_decide (p ∈ rest)).
  - rewrite lookup_delete_ne by done.
    apply (f_equal (λ b : bool, if b then None else fs !! q)).
    apply bool_decide_ext. rewrite elem_of_cons. tauto.
Qed.

(** When nothing but regular files stands in the way the loop unlinks
    every path and ends normally. *)
Lemma remove_files_regular paths (fs : gmap string OS.Node) :
  (∀ p n, p ∈ paths → fs !! p = Some n → OS.is_regular n = true) →
  remove_files paths fs = (unlinked paths fs, inr tt).
Proof.
  revert fs. induction paths as [|p rest IH]; intros fs Hreg; [reflexivity|].
  assert (Hrest : ∀ q n, q ∈ rest → delete p fs !! q = Some n → OS.is_regular n = true).
  { intros q n Hq Hn. apply lookup_delete_Some in Hn as [_ Hn].
    apply (Hreg q n); [by apply list_elem_of_further | exact Hn]. }
  change (unlinked (p :: rest) fs) with (unlinked rest (delete p fs)).
  simpl. unfold OS.exists_, OS.remove.
  destruct (fs !! p) as [n|] eqn:Hp.
  - rewrite bool_decide_eq_true_2 by (by eexists).
    rewrite (Hreg p n (list_elem_of_here _ _) Hp). simpl. by apply IH.
  - rewrite bool_decide_eq_false_2 by (by intros [? ?]).
    rewrite <- (delete_id fs p Hp) at 1. by apply IH.
Qed.

(** A path that exists and is not a regular file stops the loop: what came
    before it is unlinked, it and what comes after are not looked at. *)
Lemma remove_files_blocked before blocker after (fs : gmap string OS.Node) n :
  (∀ p m, p ∈ before → fs !! p = Some m → OS.is_regular m = true) →
  blocker ∉ before →
  fs !! blocker = Some n → OS.is_regular n = false →
  ∃ e, remove_files (before ++ blocker :: after) fs = (unlinked before fs, inl e).
Proof.
  revert fs. induction before as [|p rest IH]; intros fs Hreg Hnotin Hblock Hdir.
  - simpl. unfold OS.exists_, OS.remove.
    rewrite bool_decide_eq_true_2 by (by eexists).
    rewrite Hblock, Hdir. simpl. by eexists.
  - apply not_elem_of_cons in Hnotin as [Hne Hnotin].
    assert (Hrest : ∀ q m, q ∈ rest → delete p fs !! q = Some m → OS.is_regular m = true).
    { intros q m Hq Hm. apply lookup_delete_Some in Hm as [_ Hm].
      apply (Hreg q m); [by apply list_elem_of_further | exact Hm]. }
    assert (Hblock' : delete p fs !! blocker = Some n)
      by (by rewrite lookup_delete_ne).
    change (unlinked (p :: rest) fs) with (unlinked rest (delete p fs)).
    simpl. unfold OS.exists_, OS.remove.
    destruct (fs !! p) as [m|] eqn:Hp.
    + rewrite bool_decide_eq_true_2 by (by eexists).
      rewrite (Hreg p m (list_elem_of_here _ _) Hp). simpl. by apply IH.
    + rewrite bool_decide_eq_false_2 by (by intros [? ?]).
      rewrite (delete_id fs p Hp) in Hrest, Hblock' |- *. by apply IH.
Qed.

End DeletionFacts.

Module SampleStore.
Import Models Tables.
Local Open Scope string_scope.
Local Open Scope Z_scope.

Definition row (key release : Z) (path : string) : FileRow :=
  {| file_id := key; file_release_id := release; file_path := path;
     file_duration := None; file_bitrate := None; file_sample_rate := None;
     file_channels := None; processing_status := "completed" |}.

Definition rows : list FileRow :=
  [row 1 7 "/uploads/audio/a.mp3"; row 2 7 "/uploads/artwork/a.jpg";
   row 3 9 "/uploads/audio/b.mp3"].

Definition tables : DB * list FileRow := (Sample.database "draft" [], rows).

Definition disk : gmap string OS.Node :=
  {[ "/uploads/audio/a.mp3" := SampleFiles.file 5000000;
     "/uploads/audio/b.mp3" := SampleFiles.file 6000000 ]}.

(** A commit that the database refuses. *)
Definition failing_commit (st : DB * list FileRow) : Py.result (DB * list FileRow) :=
  Py.raise Py.RuntimeError "IntegrityError".

End SampleStore.

Section DeletionClaims.
Import Models Tables Deletion.
Local Open Scope string_scope.
Local Open Scope Z_scope.
Local Open Scope list_scope.

(** X20.  Deleting one's own release, when each of its files is either a
    regular file or already missing from the disk: every file path of the
    release is gone from the disk afterwards (missing ones are skipped
    without error) and no other path is touched.  If the commit goes
    through, the answer is 200, the release and exactly its file rows are
    gone and every other release and row is as before.  If the commit
    raises, the answer is 500 and the tables are rolled back, but the files
    stay deleted: the deletion is not atomic. *)
Theorem delete_release_unlinks_files
    (session_commit : DB * list FileRow -> Py.result (DB * list FileRow))
    (current_user_id release_id : Z) (st : DB * list FileRow)
    (fs : gmap string OS.Node) (release : Release) :
  releases st.1 !! release_id = Some release →
  user_id release = current_user_id →
  let paths := file_path <$> files_of release_id st.2 in
  (∀ p n, p ∈ paths → fs !! p = Some n → OS.is_regular n = true) →
  let out := delete_release session_commit current_user_id release_id st fs in
  (∀ p, p ∈ paths → out.1.2 !! p = None) ∧
  (∀ q, q ∉ paths → out.1.2 !! q = fs !! q) ∧
  (session_commit (delete_rows release_id st) = inr (delete_rows release_id st) →
     out.2 = 200 ∧
     releases out.1.1.1 !! release_id = None ∧
     (∀ other, other ≠ release_id →
        releases out.1.1.1 !! other = releases st.1 !! other) ∧
     (∀ r, r ∈ out.1.1.2 ↔ r ∈ st.2 ∧ file_release_id r ≠ release_id)) ∧
  (∀ e, session_commit (delete_rows release_id st) = inl e →
     out.2 = 500 ∧ out.1.1 = st).
Proof.
  intros Hfound Howner paths Hreg out.
  assert (Hout : out = match session_commit (delete_rows release_id st) with
                       | inr st' => (st', unlinked paths fs, 200)
                       | inl _ => (st, unlinked paths fs, 500)
                       end).
  { subst out. unfold delete_release. rewrite Hfound.
    rewrite (proj2 (Z.eqb_eq _ _) Howner). simpl. fold paths.
    rewrite (remove_files_regular paths fs Hreg). reflexivity. }
  assert (Hfs : out.1.2 = unlinked paths fs)
    by (rewrite Hout; destruct (session_commit _); reflexivity).
  split; [|split; [|split]].
  - intros p Hp. rewrite Hfs, unlinked_lookup. by rewrite bool_decide_eq_true_2.
  - intros q Hq. rewrite Hfs, unlinked_lookup. by rewrite bool_decide_eq_false_2.
  - intros Hcommit. rewrite Hout, Hcommit. simpl.
    split; [reflexivity|]. split; [apply lookup_delete_eq|].
    split; [intros other Hne; by rewrite lookup_delete_ne|].
    intros r. rewrite list_elem_of_In, filter_In, <- list_elem_of_In.
    rewrite negb_true_iff, Z.eqb_neq. reflexivity.
  - intros e Hcommit. rewrite Hout, Hcommit. done.
Qed.

Lemma delete_release_unlinks_files_witness :
  let out := delete_release SampleStore.failing_commit 1 7 SampleStore.tables
               SampleStore.disk in
  out.2 = 500 ∧ out.1.1 = SampleStore.tables ∧
  out.1.2 !! "/uploads/audio/a.mp3" = None ∧
  out.1.2 !! "/uploads/audio/b.mp3" = SampleStore.disk !! "/uploads/audio/b.mp3".
Proof.
  destruct (delete_release_unlinks_files SampleStore.failing_commit 1 7
              SampleStore.tables SampleStore.disk (Sample.release "draft")
              eq_refl eq_refl)
    as (Hgone & Hkept & _ & Hfail).
  - intros p n Hp Hn. simpl in Hp.
    apply elem_of_cons in Hp as [-> | Hp];
      [|apply elem_of_cons in Hp as [-> | Hp]; [|by apply elem_of_nil in Hp]].
    + vm_compute in Hn. inversion Hn. reflexivity.
    + vm_compute in Hn. discriminate Hn.
  - destruct (Hfail _ eq_refl) as [Hcode Htables].
    split; [exact Hcode|]. split; [exact Htables|].
    split; [apply Hgone; simpl; set_solver | apply Hkept; simpl; set_solver].
Defined.

(** X21.  When one of the release's file paths exists but is not a regular
    file (a directory, say), [os.remove] raises in the middle of the loop:
    the answer is 500 and the tables are unchanged, while the files listed
    before that path are already deleted and the paths after it are left
    on disk. *)
Theorem delete_release_stops_at_directory
    (session_commit : DB * list FileRow -> Py.result (DB * list FileRow))
    (current_user_id release_id : Z) (st : DB * list FileRow)
    (fs : gmap string OS.Node) (release : Release)
    (before : list string) (blocker : string) (after : list string) (n : OS.Node) :
  releases st.1 !! release_id = Some release →
  user_id release = current_user_id →
  file_path <$> files_of release_id st.2 = before ++ blocker :: after →
  (∀ p m, p ∈ before → fs !! p = Some m → OS.is_regular m = true) →
  blocker ∉ before →
  fs !! blocker = Some n → OS.is_regular n = false →
  let out := delete_release session_commit current_user_id release_id st fs in
  out.2 = 500 ∧ out.1.1 = st ∧
  (∀ p, p ∈ before → out.1.2 !! p = None) ∧
  (∀ q, q ∉ before → out.1.2 !! q = fs !! q).
Proof.
  intros Hfound Howner Hpaths Hreg Hnotin Hblock Hdir out.
  destruct (remove_files_blocked before blocker after fs n Hreg Hnotin Hblock Hdir)
    as [e Hloop].
  assert (Hout : out = (st, unlinked before fs, 500)).
  { subst out. unfold delete_release. rewrite Hfound.
    rewrite (proj2 (Z.eqb_eq _ _) Howner). simpl. rewrite Hpaths, Hloop. reflexivity. }
  rewrite Hout. simpl. split; [reflexivity|]. split; [reflexivity|]. split.
  - intros p Hp. rewrite unlinked_lookup. by rewrite bool_decide_eq_true_2.
  - intros q Hq. rewrite unlinked_lookup. by rewrite bool_decide_eq_false_2.
Qed.

Lemma delete_release_stops_at_directory_witness :
  let fs := <["/uploads/artwork/a.jpg" := SampleServer.directory]> SampleStore.disk in
  let out := delete_release Py.ret 1 7 SampleStore.tables fs in
  out.2 = 500 ∧ out.1.1 = SampleStore.tables ∧
  out.1.2 !! "/uploads/audio/a.mp3" = None ∧
  out.1.2 !! "/uploads/artwork/a.jpg" = Some SampleServer.directory.
Proof.
  destruct (delete_release_stops_at_directory Py.ret 1 7 SampleStore.tables
              (<["/uploads/artwork/a.jpg" := SampleServer.directory]> SampleStore.disk)
              (Sample.release "draft")
              ["/uploads/audio/a.mp3"] "/uploads/artwork/a.jpg" []
              SampleServer.directory eq_refl eq_refl eq_refl)
    as (Hcode & Htables & Hgone & Hkept).
  - intros p m Hp Hm. apply list_elem_of_singleton in Hp as ->.
    vm_compute in Hm. inversion Hm. reflexivity.
  - set_solver.
  - reflexivity.
  - reflexivity.
  - split; [exact Hcode|]. split; [exact Htables|].
    split; [apply Hgone; set_solver|].
    rewrite Hkept by set_solver. reflexivity.
Defined.

End DeletionClaims.
